(** * CoinAfrique scraper: the scrape / clean / dedupe pipeline of [scraper.py]

    A shallow embedding of the pipeline functions of [src/scraper.py]
    ([build_page_url], [fetch_html], [parse_listings], [scrape_category],
    [normalize_whitespace], [clean_price], [clean_records],
    [dedupe_records]) and of [scrape_multiple] of [src/app.py], together
    with the parts of the Python runtime and of [urllib.parse] they call,
    followed by the properties stated for them.

    Python strings are sequences of Unicode code points; dictionaries used
    as records are finite maps from strings to Python values; the [seen]
    set of [dedupe_records] is a finite set; the ordered dictionary built
    from a query string is an association list in insertion order. *)

From Stdlib Require Import ZArith NArith List Lia Bool String Ascii DecimalPos.
From stdpp Require Import base option list gmap sets.

Set Warnings "-clear-no-such-hyp".

Local Open Scope N_scope.

(** ** Python strings *)

(** A [str] is a sequence of code points (each below [0x110000]). *)
Abbreviation char := N.
Abbreviation str := (list N).

(** String literals of the source, written with their ASCII spelling. *)
Definition lit (s : string) : str :=
  map N_of_ascii (list_ascii_of_string s).
Arguments lit s%_string : simpl never.

Definition in_range (lo hi c : N) : bool := (lo <=? c) && (c <=? hi).

(** [Py_UNICODE_ISSPACE]: the class matched by [\s] in a [str] pattern and
    the characters removed by [str.strip()]. *)
Definition isspace (c : char) : bool :=
  in_range 0x09 0x0D c || in_range 0x1C 0x20 c || (c =? 0x85) || (c =? 0xA0)
  || (c =? 0x1680) || in_range 0x2000 0x200A c || (c =? 0x2028)
  || (c =? 0x2029) || (c =? 0x202F) || (c =? 0x205F) || (c =? 0x3000).

(** First code point of every run of ten decimal digits (general category
    Nd) of Unicode 15; the mathematical digits [U+1D7CE..U+1D7FF] are five
    consecutive runs. *)
Definition decimal_zeros : list N :=
  [ 0x0030; 0x0660; 0x06F0; 0x07C0; 0x0966; 0x09E6; 0x0A66; 0x0AE6; 0x0B66;
    0x0BE6; 0x0C66; 0x0CE6; 0x0D66; 0x0DE6; 0x0E50; 0x0ED0; 0x0F20; 0x1040;
    0x1090; 0x17E0; 0x1810; 0x1946; 0x19D0; 0x1A80; 0x1A90; 0x1B50; 0x1BB0;
    0x1C40; 0x1C50; 0xA620; 0xA8D0; 0xA900; 0xA9D0; 0xA9F0; 0xAA50; 0xABF0;
    0xFF10; 0x104A0; 0x10D30; 0x11066; 0x110F0; 0x11136; 0x111D0; 0x112F0;
    0x11450; 0x114D0; 0x11650; 0x116C0; 0x11730; 0x118E0; 0x11950; 0x11C50;
    0x11D50; 0x11DA0; 0x11F50; 0x16A60; 0x16AC0; 0x16B50;
    0x1D7CE; 0x1D7D8; 0x1D7E2; 0x1D7EC; 0x1D7F6;
    0x1E140; 0x1E2F0; 0x1E4F0; 0x1E950; 0x1FBF0 ].

(** [Py_UNICODE_TODECIMAL]: the value of a decimal digit, [None] for any
    other code point. *)
Definition to_decimal (c : char) : option N :=
  (fun z => c - z) <$> List.find (fun z => in_range z (z + 9) c) decimal_zeros.

(** [Py_UNICODE_ISDECIMAL]: the class matched by [\d] in a [str] pattern. *)
Definition isdecimal (c : char) : bool :=
  match to_decimal c with Some _ => true | None => false end.

Fixpoint drop_while {A} (p : A -> bool) (l : list A) : list A :=
  match l with
  | [] => []
  | x :: l' => if p x then drop_while p l' else l
  end.

(** ** Lower case

    [str.lower()] of CPython 3.13 (Unicode 15.1): every code point is
    replaced by its full lower-case mapping, and a capital sigma [U+03A3]
    by the final or the non-final small sigma, according to its context. *)

(** The simple lower-case mappings that change a code point, as runs
    [(first, last, step, target)]: the code points [first], [first + step],
    ... up to [last] are mapped to [target], [target + step], ... *)
Definition lower_runs : list (N * N * N * N) :=
  [ (0x0041, 0x005A, 1, 0x0061); (0x00C0, 0x00D6, 1, 0x00E0);
    (0x00D8, 0x00DE, 1, 0x00F8); (0x0100, 0x012E, 2, 0x0101);
    (0x0132, 0x0136, 2, 0x0133); (0x0139, 0x0147, 2, 0x013A);
    (0x014A, 0x0176, 2, 0x014B); (0x0178, 0x0178, 1, 0x00FF);
    (0x0179, 0x017D, 2, 0x017A); (0x0181, 0x0181, 1, 0x0253);
    (0x0182, 0x0184, 2, 0x0183); (0x0186, 0x0186, 1, 0x0254);
    (0x0187, 0x0187, 1, 0x0188); (0x0189, 0x018A, 1, 0x0256);
    (0x018B, 0x018B, 1, 0x018C); (0x018E, 0x018E, 1, 0x01DD);
    (0x018F, 0x018F, 1, 0x0259); (0x0190, 0x0190, 1, 0x025B);
    (0x0191, 0x0191, 1, 0x0192); (0x0193, 0x0193, 1, 0x0260);
    (0x0194, 0x0194, 1, 0x0263); (0x0196, 0x0196, 1, 0x0269);
    (0x0197, 0x0197, 1, 0x0268); (0x0198, 0x0198, 1, 0x0199);
    (0x019C, 0x019C, 1, 0x026F); (0x019D, 0x019D, 1, 0x0272);
    (0x019F, 0x019F, 1, 0x0275); (0x01A0, 0x01A4, 2, 0x01A1);
    (0x01A6, 0x01A6, 1, 0x0280); (0x01A7, 0x01A7, 1, 0x01A8);
    (0x01A9, 0x01A9, 1, 0x0283); (0x01AC, 0x01AC, 1, 0x01AD);
    (0x01AE, 0x01AE, 1, 0x0288); (0x01AF, 0x01AF, 1, 0x01B0);
    (0x01B1, 0x01B2, 1, 0x028A); (0x01B3, 0x01B5, 2, 0x01B4);
    (0x01B7, 0x01B7, 1, 0x0292); (0x01B8, 0x01B8, 1, 0x01B9);
    (0x01BC, 0x01BC, 1, 0x01BD); (0x01C4, 0x01C4, 1, 0x01C6);
    (0x01C5, 0x01C5, 1, 0x01C6); (0x01C7, 0x01C7, 1, 0x01C9);
    (0x01C8, 0x01C8, 1, 0x01C9); (0x01CA, 0x01CA, 1, 0x01CC);
    (0x01CB, 0x01DB, 2, 0x01CC); (0x01DE, 0x01EE, 2, 0x01DF);
    (0x01F1, 0x01F1, 1, 0x01F3); (0x01F2, 0x01F4, 2, 0x01F3);
    (0x01F6, 0x01F6, 1, 0x0195); (0x01F7, 0x01F7, 1, 0x01BF);
    (0x01F8, 0x021E, 2, 0x01F9); (0x0220, 0x0220, 1, 0x019E);
    (0x0222, 0x0232, 2, 0x0223); (0x023A, 0x023A, 1, 0x2C65);
    (0x023B, 0x023B, 1, 0x023C); (0x023D, 0x023D, 1, 0x019A);
    (0x023E, 0x023E, 1, 0x2C66); (0x0241, 0x0241, 1, 0x0242);
    (0x0243, 0x0243, 1, 0x0180); (0x0244, 0x0244, 1, 0x0289);
    (0x0245, 0x0245, 1, 0x028C); (0x0246, 0x024E, 2, 0x0247);
    (0x0370, 0x0372, 2, 0x0371); (0x0376, 0x0376, 1, 0x0377);
    (0x037F, 0x037F, 1, 0x03F3); (0x0386, 0x0386, 1, 0x03AC);
    (0x0388, 0x038A, 1, 0x03AD); (0x038C, 0x038C, 1, 0x03CC);
    (0x038E, 0x038F, 1, 0x03CD); (0x0391, 0x03A1, 1, 0x03B1);
    (0x03A3, 0x03AB, 1, 0x03C3); (0x03CF, 0x03CF, 1, 0x03D7);
    (0x03D8, 0x03EE, 2, 0x03D9); (0x03F4, 0x03F4, 1, 0x03B8);
    (0x03F7, 0x03F7, 1, 0x03F8); (0x03F9, 0x03F9, 1, 0x03F2);
    (0x03FA, 0x03FA, 1, 0x03FB); (0x03FD, 0x03FF, 1, 0x037B);
    (0x0400, 0x040F, 1, 0x0450); (0x0410, 0x042F, 1, 0x0430);
    (0x0460, 0x0480, 2, 0x0461); (0x048A, 0x04BE, 2, 0x048B);
    (0x04C0, 0x04C0, 1, 0x04CF); (0x04C1, 0x04CD, 2, 0x04C2);
    (0x04D0, 0x052E, 2, 0x04D1); (0x0531, 0x0556, 1, 0x0561);
    (0x10A0, 0x10C5, 1, 0x2D00); (0x10C7, 0x10C7, 1, 0x2D27);
    (0x10CD, 0x10CD, 1, 0x2D2D); (0x13A0, 0x13EF, 1, 0xAB70);
    (0x13F0, 0x13F5, 1, 0x13F8); (0x1C90, 0x1CBA, 1, 0x10D0);
    (0x1CBD, 0x1CBF, 1, 0x10FD); (0x1E00, 0x1E94, 2, 0x1E01);
    (0x1E9E, 0x1E9E, 1, 0x00DF); (0x1EA0, 0x1EFE, 2, 0x1EA1);
    (0x1F08, 0x1F0F, 1, 0x1F00); (0x1F18, 0x1F1D, 1, 0x1F10);
    (0x1F28, 0x1F2F, 1, 0x1F20); (0x1F38, 0x1F3F, 1, 0x1F30);
    (0x1F48, 0x1F4D, 1, 0x1F40); (0x1F59, 0x1F5F, 2, 0x1F51);
    (0x1F68, 0x1F6F, 1, 0x1F60); (0x1F88, 0x1F8F, 1, 0x1F80);
    (0x1F98, 0x1F9F, 1, 0x1F90); (0x1FA8, 0x1FAF, 1, 0x1FA0);
    (0x1FB8, 0x1FB9, 1, 0x1FB0); (0x1FBA, 0x1FBB, 1, 0x1F70);
    (0x1FBC, 0x1FBC, 1, 0x1FB3); (0x1FC8, 0x1FCB, 1, 0x1F72);
    (0x1FCC, 0x1FCC, 1, 0x1FC3); (0x1FD8, 0x1FD9, 1, 0x1FD0);
    (0x1FDA, 0x1FDB, 1, 0x1F76); (0x1FE8, 0x1FE9, 1, 0x1FE0);
    (0x1FEA, 0x1FEB, 1, 0x1F7A); (0x1FEC, 0x1FEC, 1, 0x1FE5);
    (0x1FF8, 0x1FF9, 1, 0x1F78); (0x1FFA, 0x1FFB, 1, 0x1F7C);
    (0x1FFC, 0x1FFC, 1, 0x1FF3); (0x2126, 0x2126, 1, 0x03C9);
    (0x212A, 0x212A, 1, 0x006B); (0x212B, 0x212B, 1, 0x00E5);
    (0x2132, 0x2132, 1, 0x214E); (0x2160, 0x216F, 1, 0x2170);
    (0x2183, 0x2183, 1, 0x2184); (0x24B6, 0x24CF, 1, 0x24D0);
    (0x2C00, 0x2C2F, 1, 0x2C30); (0x2C60, 0x2C60, 1, 0x2C61);
    (0x2C62, 0x2C62, 1, 0x026B); (0x2C63, 0x2C63, 1, 0x1D7D);
    (0x2C64, 0x2C64, 1, 0x027D); (0x2C67, 0x2C6B, 2, 0x2C68);
    (0x2C6D, 0x2C6D, 1, 0x0251); (0x2C6E, 0x2C6E, 1, 0x0271);
    (0x2C6F, 0x2C6F, 1, 0x0250); (0x2C70, 0x2C70, 1, 0x0252);
    (0x2C72, 0x2C72, 1, 0x2C73); (0x2C75, 0x2C75, 1, 0x2C76);
    (0x2C7E, 0x2C7F, 1, 0x023F); (0x2C80, 0x2CE2, 2, 0x2C81);
    (0x2CEB, 0x2CED, 2, 0x2CEC); (0x2CF2, 0x2CF2, 1, 0x2CF3);
    (0xA640, 0xA66C, 2, 0xA641); (0xA680, 0xA69A, 2, 0xA681);
    (0xA722, 0xA72E, 2, 0xA723); (0xA732, 0xA76E, 2, 0xA733);
    (0xA779, 0xA77B, 2, 0xA77A); (0xA77D, 0xA77D, 1, 0x1D79);
    (0xA77E, 0xA786, 2, 0xA77F); (0xA78B, 0xA78B, 1, 0xA78C);
    (0xA78D, 0xA78D, 1, 0x0265); (0xA790, 0xA792, 2, 0xA791);
    (0xA796, 0xA7A8, 2, 0xA797); (0xA7AA, 0xA7AA, 1, 0x0266);
    (0xA7AB, 0xA7AB, 1, 0x025C); (0xA7AC, 0xA7AC, 1, 0x0261);
    (0xA7AD, 0xA7AD, 1, 0x026C); (0xA7AE, 0xA7AE, 1, 0x026A);
    (0xA7B0, 0xA7B0, 1, 0x029E); (0xA7B1, 0xA7B1, 1, 0x0287);
    (0xA7B2, 0xA7B2, 1, 0x029D); (0xA7B3, 0xA7B3, 1, 0xAB53);
    (0xA7B4, 0xA7C2, 2, 0xA7B5); (0xA7C4, 0xA7C4, 1, 0xA794);
    (0xA7C5, 0xA7C5, 1, 0x0282); (0xA7C6, 0xA7C6, 1, 0x1D8E);
    (0xA7C7, 0xA7C9, 2, 0xA7C8); (0xA7D0, 0xA7D0, 1, 0xA7D1);
    (0xA7D6, 0xA7D8, 2, 0xA7D7); (0xA7F5, 0xA7F5, 1, 0xA7F6);
    (0xFF21, 0xFF3A, 1, 0xFF41); (0x10400, 0x10427, 1, 0x10428);
    (0x104B0, 0x104D3, 1, 0x104D8); (0x10570, 0x1057A, 1, 0x10597);
    (0x1057C, 0x1058A, 1, 0x105A3); (0x1058C, 0x10592, 1, 0x105B3);
    (0x10594, 0x10595, 1, 0x105BB); (0x10C80, 0x10CB2, 1, 0x10CC0);
    (0x118A0, 0x118BF, 1, 0x118C0); (0x16E40, 0x16E5F, 1, 0x16E60);
    (0x1E900, 0x1E921, 1, 0x1E922) ].

Definition in_run (c : char) (run : N * N * N * N) : bool :=
  let '(first, last, step, _) := run in
  (first <=? c) && (c <=? last) && ((c - first) mod step =? 0).

(** [_PyUnicode_ToLowercase]: the simple lower-case mapping. *)
Definition to_lower (c : char) : char :=
  match List.find (in_run c) lower_runs with
  | Some (first, _, _, target) => target + (c - first)
  | None => c
  end.

(** [_PyUnicode_ToLowerFull]: [U+0130] is the one code point whose lower
    case is made of two code points. *)
Definition to_lower_full (c : char) : list char :=
  if c =? 0x130 then [0x69; 0x307] else [to_lower c].

Definition in_ranges (ranges : list (N * N)) (c : char) : bool :=
  existsb (fun r => in_range r.1 r.2 c) ranges.

(** The code points with the property Cased. *)
Definition cased_ranges : list (N * N) :=
  [ (0x0041, 0x005A); (0x0061, 0x007A); (0x00AA, 0x00AA); (0x00B5, 0x00B5);
    (0x00BA, 0x00BA); (0x00C0, 0x00D6); (0x00D8, 0x00F6); (0x00F8, 0x01BA);
    (0x01BC, 0x01BF); (0x01C4, 0x0293); (0x0295, 0x02B8); (0x02C0, 0x02C1);
    (0x02E0, 0x02E4); (0x0345, 0x0345); (0x0370, 0x0373); (0x0376, 0x0377);
    (0x037A, 0x037D); (0x037F, 0x037F); (0x0386, 0x0386); (0x0388, 0x038A);
    (0x038C, 0x038C); (0x038E, 0x03A1); (0x03A3, 0x03F5); (0x03F7, 0x0481);
    (0x048A, 0x052F); (0x0531, 0x0556); (0x0560, 0x0588); (0x10A0, 0x10C5);
    (0x10C7, 0x10C7); (0x10CD, 0x10CD); (0x10D0, 0x10FA); (0x10FD, 0x10FF);
    (0x13A0, 0x13F5); (0x13F8, 0x13FD); (0x1C80, 0x1C88); (0x1C90, 0x1CBA);
    (0x1CBD, 0x1CBF); (0x1D00, 0x1DBF); (0x1E00, 0x1F15); (0x1F18, 0x1F1D);
    (0x1F20, 0x1F45); (0x1F48, 0x1F4D); (0x1F50, 0x1F57); (0x1F59, 0x1F59);
    (0x1F5B, 0x1F5B); (0x1F5D, 0x1F5D); (0x1F5F, 0x1F7D); (0x1F80, 0x1FB4);
    (0x1FB6, 0x1FBC); (0x1FBE, 0x1FBE); (0x1FC2, 0x1FC4); (0x1FC6, 0x1FCC);
    (0x1FD0, 0x1FD3); (0x1FD6, 0x1FDB); (0x1FE0, 0x1FEC); (0x1FF2, 0x1FF4);
    (0x1FF6, 0x1FFC); (0x2071, 0x2071); (0x207F, 0x207F); (0x2090, 0x209C);
    (0x2102, 0x2102); (0x2107, 0x2107); (0x210A, 0x2113); (0x2115, 0x2115);
    (0x2119, 0x211D); (0x2124, 0x2124); (0x2126, 0x2126); (0x2128, 0x2128);
    (0x212A, 0x212D); (0x212F, 0x2134); (0x2139, 0x2139); (0x213C, 0x213F);
    (0x2145, 0x2149); (0x214E, 0x214E); (0x2160, 0x217F); (0x2183, 0x2184);
    (0x24B6, 0x24E9); (0x2C00, 0x2CE4); (0x2CEB, 0x2CEE); (0x2CF2, 0x2CF3);
    (0x2D00, 0x2D25); (0x2D27, 0x2D27); (0x2D2D, 0x2D2D); (0xA640, 0xA66D);
    (0xA680, 0xA69D); (0xA722, 0xA787); (0xA78B, 0xA78E); (0xA790, 0xA7CA);
    (0xA7D0, 0xA7D1); (0xA7D3, 0xA7D3); (0xA7D5, 0xA7D9); (0xA7F5, 0xA7F6);
    (0xA7F8, 0xA7FA); (0xAB30, 0xAB5A); (0xAB5C, 0xAB68); (0xAB70, 0xABBF);
    (0xFB00, 0xFB06); (0xFB13, 0xFB17); (0xFF21, 0xFF3A); (0xFF41, 0xFF5A);
    (0x10400, 0x1044F); (0x104B0, 0x104D3); (0x104D8, 0x104FB); (0x10570, 0x1057A);
    (0x1057C, 0x1058A); (0x1058C, 0x10592); (0x10594, 0x10595); (0x10597, 0x105A1);
    (0x105A3, 0x105B1); (0x105B3, 0x105B9); (0x105BB, 0x105BC); (0x10780, 0x10780);
    (0x10783, 0x10785); (0x10787, 0x107B0); (0x107B2, 0x107BA); (0x10C80, 0x10CB2);
    (0x10CC0, 0x10CF2); (0x118A0, 0x118DF); (0x16E40, 0x16E7F); (0x1D400, 0x1D454);
    (0x1D456, 0x1D49C); (0x1D49E, 0x1D49F); (0x1D4A2, 0x1D4A2); (0x1D4A5, 0x1D4A6);
    (0x1D4A9, 0x1D4AC); (0x1D4AE, 0x1D4B9); (0x1D4BB, 0x1D4BB); (0x1D4BD, 0x1D4C3);
    (0x1D4C5, 0x1D505); (0x1D507, 0x1D50A); (0x1D50D, 0x1D514); (0x1D516, 0x1D51C);
    (0x1D51E, 0x1D539); (0x1D53B, 0x1D53E); (0x1D540, 0x1D544); (0x1D546, 0x1D546);
    (0x1D54A, 0x1D550); (0x1D552, 0x1D6A5); (0x1D6A8, 0x1D6C0); (0x1D6C2, 0x1D6DA);
    (0x1D6DC, 0x1D6FA); (0x1D6FC, 0x1D714); (0x1D716, 0x1D734); (0x1D736, 0x1D74E);
    (0x1D750, 0x1D76E); (0x1D770, 0x1D788); (0x1D78A, 0x1D7A8); (0x1D7AA, 0x1D7C2);
    (0x1D7C4, 0x1D7CB); (0x1DF00, 0x1DF09); (0x1DF0B, 0x1DF1E); (0x1DF25, 0x1DF2A);
    (0x1E030, 0x1E06D); (0x1E900, 0x1E943); (0x1F130, 0x1F149); (0x1F150, 0x1F169);
    (0x1F170, 0x1F189) ].

(** The code points with the property Case_Ignorable. *)
Definition case_ignorable_ranges : list (N * N) :=
  [ (0x0027, 0x0027); (0x002E, 0x002E); (0x003A, 0x003A); (0x005E, 0x005E);
    (0x0060, 0x0060); (0x00A8, 0x00A8); (0x00AD, 0x00AD); (0x00AF, 0x00AF);
    (0x00B4, 0x00B4); (0x00B7, 0x00B8); (0x02B0, 0x036F); (0x0374, 0x0375);
    (0x037A, 0x037A); (0x0384, 0x0385); (0x0387, 0x0387); (0x0483, 0x0489);
    (0x0559, 0x0559); (0x055F, 0x055F); (0x0591, 0x05BD); (0x05BF, 0x05BF);
    (0x05C1, 0x05C2); (0x05C4, 0x05C5); (0x05C7, 0x05C7); (0x05F4, 0x05F4);
    (0x0600, 0x0605); (0x0610, 0x061A); (0x061C, 0x061C); (0x0640, 0x0640);
    (0x064B, 0x065F); (0x0670, 0x0670); (0x06D6, 0x06DD); (0x06DF, 0x06E8);
    (0x06EA, 0x06ED); (0x070F, 0x070F); (0x0711, 0x0711); (0x0730, 0x074A);
    (0x07A6, 0x07B0); (0x07EB, 0x07F5); (0x07FA, 0x07FA); (0x07FD, 0x07FD);
    (0x0816, 0x082D); (0x0859, 0x085B); (0x0888, 0x0888); (0x0890, 0x0891);
    (0x0898, 0x089F); (0x08C9, 0x0902); (0x093A, 0x093A); (0x093C, 0x093C);
    (0x0941, 0x0948); (0x094D, 0x094D); (0x0951, 0x0957); (0x0962, 0x0963);
    (0x0971, 0x0971); (0x0981, 0x0981); (0x09BC, 0x09BC); (0x09C1, 0x09C4);
    (0x09CD, 0x09CD); (0x09E2, 0x09E3); (0x09FE, 0x09FE); (0x0A01, 0x0A02);
    (0x0A3C, 0x0A3C); (0x0A41, 0x0A42); (0x0A47, 0x0A48); (0x0A4B, 0x0A4D);
    (0x0A51, 0x0A51); (0x0A70, 0x0A71); (0x0A75, 0x0A75); (0x0A81, 0x0A82);
    (0x0ABC, 0x0ABC); (0x0AC1, 0x0AC5); (0x0AC7, 0x0AC8); (0x0ACD, 0x0ACD);
    (0x0AE2, 0x0AE3); (0x0AFA, 0x0AFF); (0x0B01, 0x0B01); (0x0B3C, 0x0B3C);
    (0x0B3F, 0x0B3F); (0x0B41, 0x0B44); (0x0B4D, 0x0B4D); (0x0B55, 0x0B56);
    (0x0B62, 0x0B63); (0x0B82, 0x0B82); (0x0BC0, 0x0BC0); (0x0BCD, 0x0BCD);
    (0x0C00, 0x0C00); (0x0C04, 0x0C04); (0x0C3C, 0x0C3C); (0x0C3E, 0x0C40);
    (0x0C46, 0x0C48); (0x0C4A, 0x0C4D); (0x0C55, 0x0C56); (0x0C62, 0x0C63);
    (0x0C81, 0x0C81); (0x0CBC, 0x0CBC); (0x0CBF, 0x0CBF); (0x0CC6, 0x0CC6);
    (0x0CCC, 0x0CCD); (0x0CE2, 0x0CE3); (0x0D00, 0x0D01); (0x0D3B, 0x0D3C);
    (0x0D41, 0x0D44); (0x0D4D, 0x0D4D); (0x0D62, 0x0D63); (0x0D81, 0x0D81);
    (0x0DCA, 0x0DCA); (0x0DD2, 0x0DD4); (0x0DD6, 0x0DD6); (0x0E31, 0x0E31);
    (0x0E34, 0x0E3A); (0x0E46, 0x0E4E); (0x0EB1, 0x0EB1); (0x0EB4, 0x0EBC);
    (0x0EC6, 0x0EC6); (0x0EC8, 0x0ECE); (0x0F18, 0x0F19); (0x0F35, 0x0F35);
    (0x0F37, 0x0F37); (0x0F39, 0x0F39); (0x0F71, 0x0F7E); (0x0F80, 0x0F84);
    (0x0F86, 0x0F87); (0x0F8D, 0x0F97); (0x0F99, 0x0FBC); (0x0FC6, 0x0FC6);
    (0x102D, 0x1030); (0x1032, 0x1037); (0x1039, 0x103A); (0x103D, 0x103E);
    (0x1058, 0x1059); (0x105E, 0x1060); (0x1071, 0x1074); (0x1082, 0x1082);
    (0x1085, 0x1086); (0x108D, 0x108D); (0x109D, 0x109D); (0x10FC, 0x10FC);
    (0x135D, 0x135F); (0x1712, 0x1714); (0x1732, 0x1733); (0x1752, 0x1753);
    (0x1772, 0x1773); (0x17B4, 0x17B5); (0x17B7, 0x17BD); (0x17C6, 0x17C6);
    (0x17C9, 0x17D3); (0x17D7, 0x17D7); (0x17DD, 0x17DD); (0x180B, 0x180F);
    (0x1843, 0x1843); (0x1885, 0x1886); (0x18A9, 0x18A9); (0x1920, 0x1922);
    (0x1927, 0x1928); (0x1932, 0x1932); (0x1939, 0x193B); (0x1A17, 0x1A18);
    (0x1A1B, 0x1A1B); (0x1A56, 0x1A56); (0x1A58, 0x1A5E); (0x1A60, 0x1A60);
    (0x1A62, 0x1A62); (0x1A65, 0x1A6C); (0x1A73, 0x1A7C); (0x1A7F, 0x1A7F);
    (0x1AA7, 0x1AA7); (0x1AB0, 0x1ACE); (0x1B00, 0x1B03); (0x1B34, 0x1B34);
    (0x1B36, 0x1B3A); (0x1B3C, 0x1B3C); (0x1B42, 0x1B42); (0x1B6B, 0x1B73);
    (0x1B80, 0x1B81); (0x1BA2, 0x1BA5); (0x1BA8, 0x1BA9); (0x1BAB, 0x1BAD);
    (0x1BE6, 0x1BE6); (0x1BE8, 0x1BE9); (0x1BED, 0x1BED); (0x1BEF, 0x1BF1);
    (0x1C2C, 0x1C33); (0x1C36, 0x1C37); (0x1C78, 0x1C7D); (0x1CD0, 0x1CD2);
    (0x1CD4, 0x1CE0); (0x1CE2, 0x1CE8); (0x1CED, 0x1CED); (0x1CF4, 0x1CF4);
    (0x1CF8, 0x1CF9); (0x1D2C, 0x1D6A); (0x1D78, 0x1D78); (0x1D9B, 0x1DFF);
    (0x1FBD, 0x1FBD); (0x1FBF, 0x1FC1); (0x1FCD, 0x1FCF); (0x1FDD, 0x1FDF);
    (0x1FED, 0x1FEF); (0x1FFD, 0x1FFE); (0x200B, 0x200F); (0x2018, 0x2019);
    (0x2024, 0x2024); (0x2027, 0x2027); (0x202A, 0x202E); (0x2060, 0x2064);
    (0x2066, 0x206F); (0x2071, 0x2071); (0x207F, 0x207F); (0x2090, 0x209C);
    (0x20D0, 0x20F0); (0x2C7C, 0x2C7D); (0x2CEF, 0x2CF1); (0x2D6F, 0x2D6F);
    (0x2D7F, 0x2D7F); (0x2DE0, 0x2DFF); (0x2E2F, 0x2E2F); (0x3005, 0x3005);
    (0x302A, 0x302D); (0x3031, 0x3035); (0x303B, 0x303B); (0x3099, 0x309E);
    (0x30FC, 0x30FE); (0xA015, 0xA015); (0xA4F8, 0xA4FD); (0xA60C, 0xA60C);
    (0xA66F, 0xA672); (0xA674, 0xA67D); (0xA67F, 0xA67F); (0xA69C, 0xA69F);
    (0xA6F0, 0xA6F1); (0xA700, 0xA721); (0xA770, 0xA770); (0xA788, 0xA78A);
    (0xA7F2, 0xA7F4); (0xA7F8, 0xA7F9); (0xA802, 0xA802); (0xA806, 0xA806);
    (0xA80B, 0xA80B); (0xA825, 0xA826); (0xA82C, 0xA82C); (0xA8C4, 0xA8C5);
    (0xA8E0, 0xA8F1); (0xA8FF, 0xA8FF); (0xA926, 0xA92D); (0xA947, 0xA951);
    (0xA980, 0xA982); (0xA9B3, 0xA9B3); (0xA9B6, 0xA9B9); (0xA9BC, 0xA9BD);
    (0xA9CF, 0xA9CF); (0xA9E5, 0xA9E6); (0xAA29, 0xAA2E); (0xAA31, 0xAA32);
    (0xAA35, 0xAA36); (0xAA43, 0xAA43); (0xAA4C, 0xAA4C); (0xAA70, 0xAA70);
    (0xAA7C, 0xAA7C); (0xAAB0, 0xAAB0); (0xAAB2, 0xAAB4); (0xAAB7, 0xAAB8);
    (0xAABE, 0xAABF); (0xAAC1, 0xAAC1); (0xAADD, 0xAADD); (0xAAEC, 0xAAED);
    (0xAAF3, 0xAAF4); (0xAAF6, 0xAAF6); (0xAB5B, 0xAB5F); (0xAB69, 0xAB6B);
    (0xABE5, 0xABE5); (0xABE8, 0xABE8); (0xABED, 0xABED); (0xFB1E, 0xFB1E);
    (0xFBB2, 0xFBC2); (0xFE00, 0xFE0F); (0xFE13, 0xFE13); (0xFE20, 0xFE2F);
    (0xFE52, 0xFE52); (0xFE55, 0xFE55); (0xFEFF, 0xFEFF); (0xFF07, 0xFF07);
    (0xFF0E, 0xFF0E); (0xFF1A, 0xFF1A); (0xFF3E, 0xFF3E); (0xFF40, 0xFF40);
    (0xFF70, 0xFF70); (0xFF9E, 0xFF9F); (0xFFE3, 0xFFE3); (0xFFF9, 0xFFFB);
    (0x101FD, 0x101FD); (0x102E0, 0x102E0); (0x10376, 0x1037A); (0x10780, 0x10785);
    (0x10787, 0x107B0); (0x107B2, 0x107BA); (0x10A01, 0x10A03); (0x10A05, 0x10A06);
    (0x10A0C, 0x10A0F); (0x10A38, 0x10A3A); (0x10A3F, 0x10A3F); (0x10AE5, 0x10AE6);
    (0x10D24, 0x10D27); (0x10EAB, 0x10EAC); (0x10EFD, 0x10EFF); (0x10F46, 0x10F50);
    (0x10F82, 0x10F85); (0x11001, 0x11001); (0x11038, 0x11046); (0x11070, 0x11070);
    (0x11073, 0x11074); (0x1107F, 0x11081); (0x110B3, 0x110B6); (0x110B9, 0x110BA);
    (0x110BD, 0x110BD); (0x110C2, 0x110C2); (0x110CD, 0x110CD); (0x11100, 0x11102);
    (0x11127, 0x1112B); (0x1112D, 0x11134); (0x11173, 0x11173); (0x11180, 0x11181);
    (0x111B6, 0x111BE); (0x111C9, 0x111CC); (0x111CF, 0x111CF); (0x1122F, 0x11231);
    (0x11234, 0x11234); (0x11236, 0x11237); (0x1123E, 0x1123E); (0x11241, 0x11241);
    (0x112DF, 0x112DF); (0x112E3, 0x112EA); (0x11300, 0x11301); (0x1133B, 0x1133C);
    (0x11340, 0x11340); (0x11366, 0x1136C); (0x11370, 0x11374); (0x11438, 0x1143F);
    (0x11442, 0x11444); (0x11446, 0x11446); (0x1145E, 0x1145E); (0x114B3, 0x114B8);
    (0x114BA, 0x114BA); (0x114BF, 0x114C0); (0x114C2, 0x114C3); (0x115B2, 0x115B5);
    (0x115BC, 0x115BD); (0x115BF, 0x115C0); (0x115DC, 0x115DD); (0x11633, 0x1163A);
    (0x1163D, 0x1163D); (0x1163F, 0x11640); (0x116AB, 0x116AB); (0x116AD, 0x116AD);
    (0x116B0, 0x116B5); (0x116B7, 0x116B7); (0x1171D, 0x1171F); (0x11722, 0x11725);
    (0x11727, 0x1172B); (0x1182F, 0x11837); (0x11839, 0x1183A); (0x1193B, 0x1193C);
    (0x1193E, 0x1193E); (0x11943, 0x11943); (0x119D4, 0x119D7); (0x119DA, 0x119DB);
    (0x119E0, 0x119E0); (0x11A01, 0x11A0A); (0x11A33, 0x11A38); (0x11A3B, 0x11A3E);
    (0x11A47, 0x11A47); (0x11A51, 0x11A56); (0x11A59, 0x11A5B); (0x11A8A, 0x11A96);
    (0x11A98, 0x11A99); (0x11C30, 0x11C36); (0x11C38, 0x11C3D); (0x11C3F, 0x11C3F);
    (0x11C92, 0x11CA7); (0x11CAA, 0x11CB0); (0x11CB2, 0x11CB3); (0x11CB5, 0x11CB6);
    (0x11D31, 0x11D36); (0x11D3A, 0x11D3A); (0x11D3C, 0x11D3D); (0x11D3F, 0x11D45);
    (0x11D47, 0x11D47); (0x11D90, 0x11D91); (0x11D95, 0x11D95); (0x11D97, 0x11D97);
    (0x11EF3, 0x11EF4); (0x11F00, 0x11F01); (0x11F36, 0x11F3A); (0x11F40, 0x11F40);
    (0x11F42, 0x11F42); (0x13430, 0x13440); (0x13447, 0x13455); (0x16AF0, 0x16AF4);
    (0x16B30, 0x16B36); (0x16B40, 0x16B43); (0x16F4F, 0x16F4F); (0x16F8F, 0x16F9F);
    (0x16FE0, 0x16FE1); (0x16FE3, 0x16FE4); (0x1AFF0, 0x1AFF3); (0x1AFF5, 0x1AFFB);
    (0x1AFFD, 0x1AFFE); (0x1BC9D, 0x1BC9E); (0x1BCA0, 0x1BCA3); (0x1CF00, 0x1CF2D);
    (0x1CF30, 0x1CF46); (0x1D167, 0x1D169); (0x1D173, 0x1D182); (0x1D185, 0x1D18B);
    (0x1D1AA, 0x1D1AD); (0x1D242, 0x1D244); (0x1DA00, 0x1DA36); (0x1DA3B, 0x1DA6C);
    (0x1DA75, 0x1DA75); (0x1DA84, 0x1DA84); (0x1DA9B, 0x1DA9F); (0x1DAA1, 0x1DAAF);
    (0x1E000, 0x1E006); (0x1E008, 0x1E018); (0x1E01B, 0x1E021); (0x1E023, 0x1E024);
    (0x1E026, 0x1E02A); (0x1E030, 0x1E06D); (0x1E08F, 0x1E08F); (0x1E130, 0x1E13D);
    (0x1E2AE, 0x1E2AE); (0x1E2EC, 0x1E2EF); (0x1E4EB, 0x1E4EF); (0x1E8D0, 0x1E8D6);
    (0x1E944, 0x1E94B); (0x1F3FB, 0x1F3FF); (0xE0001, 0xE0001); (0xE0020, 0xE007F);
    (0xE0100, 0xE01EF) ].

(** [_PyUnicode_IsCased] and [_PyUnicode_IsCaseIgnorable] *)
Definition cased (c : char) : bool := in_ranges cased_ranges c.
Definition case_ignorable (c : char) : bool := in_ranges case_ignorable_ranges c.

(** [handle_capital_sigma]: the sigma is final when a cased character
    precedes it and none follows it, case-ignorable characters being skipped
    on both sides.  [before] holds the characters before the sigma, the
    nearest first; [after] those after it. *)
Definition handle_capital_sigma (before after : str) : char :=
  let final_sigma :=
    match drop_while case_ignorable before with
    | c :: _ => cased c
    | [] => false
    end
    && match drop_while case_ignorable after with
       | c :: _ => negb (cased c)
       | [] => true
       end in
  if final_sigma then 0x3C2 else 0x3C3.

(** [lower_ucs4] *)
Definition lower_ucs4 (before after : str) (c : char) : list char :=
  if c =? 0x3A3 then [handle_capital_sigma before after] else to_lower_full c.

(** The loop of [do_lower] over the characters [s], [before] being the
    characters already read, the last one first. *)
Fixpoint do_lower (before s : str) : str :=
  match s with
  | [] => []
  | c :: s' => lower_ucs4 before s' c ++ do_lower (c :: before) s'
  end.

(** [s.lower()] *)
Definition lower (s : str) : str := do_lower [] s.

(** [s.strip()] *)
Definition lstrip (s : str) : str := drop_while isspace s.
Definition rstrip (s : str) : str := rev (drop_while isspace (rev s)).
Definition strip (s : str) : str := rstrip (lstrip s).

(** [sub in s] for two strings. *)
Fixpoint starts_with (sub s : str) : bool :=
  match sub, s with
  | [], _ => true
  | _ :: _, [] => false
  | a :: sub', b :: s' => (a =? b) && starts_with sub' s'
  end.

Fixpoint contains (sub s : str) : bool :=
  starts_with sub s ||
  match s with
  | [] => false
  | _ :: s' => contains sub s'
  end.

(** Truth value of a string: [not s] holds exactly for the empty string. *)
Definition str_truthy (s : str) : bool :=
  match s with [] => false | _ :: _ => true end.

(** [re.sub(cls, repl, s)] for a pattern that is one character class:
    every character of the class is replaced by [repl]. *)
Definition re_sub_class (cls : char -> bool) (repl s : str) : str :=
  flat_map (fun c => if cls c then repl else [c]) s.

(** [re.sub(cls+, repl, s)]: every maximal run of characters of the class is
    replaced by one [repl].  [in_run] tells that the previous character
    belongs to the run being replaced. *)
Fixpoint re_sub_runs (cls : char -> bool) (repl : str) (in_run : bool)
    (s : str) : str :=
  match s with
  | [] => []
  | c :: s' =>
      if cls c
      then (if in_run then [] else repl) ++ re_sub_runs cls repl true s'
      else c :: re_sub_runs cls repl false s'
  end.

(** The integer written by a string of decimal digits, most significant
    first. *)
Definition digits_value (digits : str) : Z :=
  Z.of_N (fold_left (fun acc c => 10 * acc + default 0 (to_decimal c)) digits 0).

(** [sys.get_int_max_str_digits()], with its default value: the longest
    decimal text [int] reads and [str] writes. *)
Definition max_str_digits : N := 4300.

(** [int(digits)] on a non-empty string of decimal digits; [None] stands
    for the [ValueError] raised when there are more than [max_str_digits]
    digits. *)
Definition int_of_digits (digits : str) : option Z :=
  if max_str_digits <? N.of_nat (length digits) then None
  else Some (digits_value digits).

(** ** [normalize_whitespace] and [clean_price] *)

(** [re.sub(r"\s+", " ", value or "").strip()] *)
Definition normalize_whitespace (value : str) : str :=
  let value := if str_truthy value then value else lit "" in
  strip (re_sub_runs isspace (lit " ") false value).

(** [clean_price]: the outer [None] stands for the [ValueError] of [int],
    [Some None] is the result [None] and [Some (Some n)] the result [n]. *)
Definition clean_price (price_text : str) : option (option Z) :=
  if negb (str_truthy price_text) then Some None
  else
    let lowered := lower price_text in
    if contains (lit "prix sur demande") lowered
       || contains (lit "sur demande") lowered
    then Some None
    else
      let digits := re_sub_class (fun c => negb (isdecimal c)) (lit "") price_text in
      if str_truthy digits then n ← int_of_digits digits; Some (Some n)
      else Some None.

(** ** Python values and dictionaries *)

(** The values a record field holds: [None], a string or an integer.  On
    these, Python's [==] (and hashing) is structural equality. *)
Inductive value : Type :=
  | VNone
  | VStr (s : str)
  | VInt (n : Z).

#[global] Instance value_eq_dec : EqDecision value.
Proof. solve_decision. Defined.

#[global] Instance value_countable : Countable value.
Proof.
  refine (inj_countable'
    (fun v => match v with
              | VNone => inl ()
              | VStr s => inr (inl s)
              | VInt n => inr (inr n)
              end)
    (fun x => match x with
              | inl _ => VNone
              | inr (inl s) => VStr s
              | inr (inr n) => VInt n
              end) _).
  intros []; reflexivity.
Defined.

(** Truth value: [None], the empty string and [0] are false. *)
Definition truthy (v : value) : bool :=
  match v with
  | VNone => false
  | VStr s => str_truthy s
  | VInt n => negb (n =? 0)%Z
  end.

(** [a or b] *)
Definition py_or (a b : value) : value := if truthy a then a else b.

Fixpoint str_of_uint (d : Decimal.uint) : str :=
  match d with
  | Decimal.Nil => []
  | Decimal.D0 d => 0x30 :: str_of_uint d
  | Decimal.D1 d => 0x31 :: str_of_uint d
  | Decimal.D2 d => 0x32 :: str_of_uint d
  | Decimal.D3 d => 0x33 :: str_of_uint d
  | Decimal.D4 d => 0x34 :: str_of_uint d
  | Decimal.D5 d => 0x35 :: str_of_uint d
  | Decimal.D6 d => 0x36 :: str_of_uint d
  | Decimal.D7 d => 0x37 :: str_of_uint d
  | Decimal.D8 d => 0x38 :: str_of_uint d
  | Decimal.D9 d => 0x39 :: str_of_uint d
  end.

(** The text [str(n)] writes for an integer: decimal digits, with a minus
    sign below zero.  The limit of [str] on the number of digits is applied
    where a record is read ([py_str]); the page numbers [build_page_url]
    writes are taken below it. *)
Definition str_of_int (n : Z) : str :=
  match n with
  | Zneg p => 0x2D :: str_of_uint (N.to_uint (Npos p))
  | _ => str_of_uint (N.to_uint (Z.to_N n))
  end.

(** [str(v)]; [None] stands for the [ValueError] raised for an integer of
    more than [max_str_digits] digits. *)
Definition py_str (v : value) : option str :=
  match v with
  | VNone => Some (lit "None")
  | VStr s => Some s
  | VInt n =>
      if (Z.abs n <? 10 ^ Z.of_N max_str_digits)%Z then Some (str_of_int n)
      else None
  end.

(** A record is a dictionary with string keys. *)
Abbreviation row := (gmap str value).

(** [d.get(k, dflt)] and [d.get(k)] *)
Definition dict_get (d : row) (k : str) (dflt : value) : value :=
  default dflt (d !! k).

Definition dict_get_none (d : row) (k : str) : value := dict_get d k VNone.

(** ** [clean_records] *)

Definition value_of_price (p : option Z) : value :=
  match p with Some n => VInt n | None => VNone end.

(** The body of the loop of [clean_records]: the dictionary appended for
    one input [row], the calls being made in the order of the source.
    [None] stands for the [ValueError] of [str] or of [clean_price]. *)
Definition clean_row (r : row) : option row :=
  prix_text ← py_str (dict_get r (lit "prix") (VStr (lit "")));
  let raw_price := normalize_whitespace prix_text in
  categorie_text ← py_str (dict_get r (lit "categorie") (VStr (lit "")));
  let categorie := py_or (VStr (normalize_whitespace categorie_text)) VNone in
  type_text ← py_str (dict_get r (lit "type") (VStr (lit "")));
  prix ← clean_price raw_price;
  adresse_text ← py_str (dict_get r (lit "adresse") (VStr (lit "")));
  image_text ← py_str (dict_get r (lit "image_lien") (VStr (lit "")));
  Some
    (<[lit "categorie" := categorie]>
    (<[lit "image_lien" := py_or (VStr (normalize_whitespace image_text)) VNone]>
    (<[lit "adresse" := py_or (VStr (normalize_whitespace adresse_text)) VNone]>
    (<[lit "prix" := value_of_price prix]>
    (<[lit "prix_brut" := py_or (VStr raw_price) VNone]>
    (<[lit "type" :=
         py_or (VStr (lower (normalize_whitespace type_text))) VNone]> ∅)))))).

(** The loop of [clean_records] over the remaining rows, [cleaned] being
    the list built so far; an exception ends it. *)
Fixpoint clean_loop (records : list row) (cleaned : list row)
    : option (list row) :=
  match records with
  | [] => Some cleaned
  | r :: records' =>
      c ← clean_row r; clean_loop records' (cleaned ++ [c])
  end.

(** [clean_records]: [cleaned] starts empty and receives one dictionary per
    input row, in iteration order. *)
Definition clean_records (records : list row) : option (list row) :=
  clean_loop records [].

(** ** [dedupe_records] *)

Abbreviation dedup_key_t := (value * value * value * value * value)%type.

(** The tuple [key] built for one row. *)
Definition dedup_key (r : row) : dedup_key_t :=
  ( dict_get_none r (lit "type"),
    py_or (dict_get_none r (lit "prix_brut")) (dict_get_none r (lit "prix")),
    dict_get_none r (lit "adresse"),
    dict_get_none r (lit "image_lien"),
    dict_get_none r (lit "categorie") ).

(** One iteration of the loop over the state [(seen, unique)]. *)
Definition dedupe_step (st : gset dedup_key_t * list row) (r : row)
    : gset dedup_key_t * list row :=
  let key := dedup_key r in
  if decide (key ∈ st.1) then st
  else ({[ key ]} ∪ st.1, st.2 ++ [r]).

Definition dedupe_records (records : list row) : list row :=
  (fold_left dedupe_step records (∅, [])).2.

(** ** The parts of [urllib.parse] (CPython 3.13) used by [build_page_url] *)

(** [s.find(c)] for one character. *)
Fixpoint find_char (c : char) (s : str) : option nat :=
  match s with
  | [] => None
  | x :: s' => if x =? c then Some 0%nat else S <$> find_char c s'
  end.

(** [c in s] *)
Definition has_char (c : char) (s : str) : bool :=
  match find_char c s with Some _ => true | None => false end.

(** [s.rfind(c)] *)
Definition rfind_char (c : char) (s : str) : option nat :=
  (fun i => (length s - 1 - i)%nat) <$> find_char c (rev s).

(** [s.partition(c)]: the text before the first [c], whether [c] occurs,
    and the text after it. *)
Definition partition (c : char) (s : str) : str * bool * str :=
  match find_char c s with
  | Some i => (take i s, true, drop (S i) s)
  | None => (s, false, [])
  end.

(** [s.split(c)]: the pieces between the occurrences of [c]; there is always
    at least one piece. *)
Fixpoint split_on (c : char) (s : str) : list str :=
  match s with
  | [] => [[]]
  | x :: s' =>
      if x =? c then [] :: split_on c s'
      else match split_on c s' with
           | [] => [[x]]
           | p :: ps => (x :: p) :: ps
           end
  end.

(** [sep.join(pieces)] *)
Fixpoint join (sep : str) (pieces : list str) : str :=
  match pieces with
  | [] => []
  | [p] => p
  | p :: ps => p ++ sep ++ join sep ps
  end.

Definition is_ascii_alpha (c : char) : bool :=
  in_range 0x41 0x5A c || in_range 0x61 0x7A c.
Definition is_ascii_digit (c : char) : bool := in_range 0x30 0x39 c.

(** Value of a hexadecimal digit, in either case. *)
Definition hexval (c : char) : option N :=
  if is_ascii_digit c then Some (c - 0x30)
  else if in_range 0x41 0x46 c then Some (c - 0x41 + 10)
  else if in_range 0x61 0x66 c then Some (c - 0x61 + 10)
  else None.

Definition is_hex (c : char) : bool :=
  match hexval c with Some _ => true | None => false end.

(** Upper-case hexadecimal digit of a value below sixteen. *)
Definition hexdigit (n : N) : char := if n <? 10 then 0x30 + n else 0x41 + (n - 10).

(** *** UTF-8 *)

Definition is_surrogate (c : char) : bool := in_range 0xD800 0xDFFF c.

(** The UTF-8 bytes of one code point. *)
Definition utf8_encode_char (c : char) : list N :=
  if c <? 0x80 then [c]
  else if c <? 0x800 then [0xC0 + c / 64; 0x80 + c mod 64]
  else if c <? 0x10000 then
    [0xE0 + c / 4096; 0x80 + (c / 64) mod 64; 0x80 + c mod 64]
  else
    [0xF0 + c / 262144; 0x80 + (c / 4096) mod 64; 0x80 + (c / 64) mod 64;
     0x80 + c mod 64].

(** [s.encode("utf-8", "strict")]: [None] stands for [UnicodeEncodeError],
    raised when the string holds a surrogate code point. *)
Definition utf8_encode (s : str) : option (list N) :=
  if forallb (fun c => negb (is_surrogate c)) s
  then Some (flat_map utf8_encode_char s)
  else None.

Definition is_cont (b : N) : bool := in_range 0x80 0xBF b.

(** May [b1] follow the lead byte [b0] of a three-byte sequence? *)
Definition second_ok3 (b0 b1 : N) : bool :=
  is_cont b1 && negb ((b0 =? 0xE0) && (b1 <? 0xA0))
  && negb ((b0 =? 0xED) && (0xA0 <=? b1)).

(** May [b1] follow the lead byte [b0] of a four-byte sequence? *)
Definition second_ok4 (b0 b1 : N) : bool :=
  is_cont b1 && negb ((b0 =? 0xF0) && (b1 <? 0x90))
  && negb ((b0 =? 0xF4) && (0x90 <=? b1)).

(** [bs.decode("utf-8", "replace")]: every malformed part is replaced by
    [U+FFFD] and decoding resumes behind it; a sequence cut off by the end
    of the data is one malformed part. *)
Fixpoint utf8_decode (bs : list N) : str :=
  match bs with
  | [] => []
  | b0 :: r0 =>
    if b0 <? 0x80 then b0 :: utf8_decode r0
    else if b0 <? 0xC2 then 0xFFFD :: utf8_decode r0
    else if b0 <? 0xE0 then
      match r0 with
      | [] => [0xFFFD]
      | b1 :: r1 =>
        if is_cont b1
        then ((b0 - 0xC0) * 64 + (b1 - 0x80)) :: utf8_decode r1
        else 0xFFFD :: utf8_decode r0
      end
    else if b0 <? 0xF0 then
      match r0 with
      | [] => [0xFFFD]
      | b1 :: r1 =>
        if negb (second_ok3 b0 b1) then 0xFFFD :: utf8_decode r0
        else match r1 with
             | [] => [0xFFFD]
             | b2 :: r2 =>
               if is_cont b2
               then ((b0 - 0xE0) * 4096 + (b1 - 0x80) * 64 + (b2 - 0x80))
                    :: utf8_decode r2
               else 0xFFFD :: utf8_decode r1
             end
      end
    else if b0 <? 0xF5 then
      match r0 with
      | [] => [0xFFFD]
      | b1 :: r1 =>
        if negb (second_ok4 b0 b1) then 0xFFFD :: utf8_decode r0
        else match r1 with
             | [] => [0xFFFD]
             | b2 :: r2 =>
               if negb (is_cont b2) then 0xFFFD :: utf8_decode r1
               else match r2 with
                    | [] => [0xFFFD]
                    | b3 :: r3 =>
                      if is_cont b3
                      then ((b0 - 0xF0) * 262144 + (b1 - 0x80) * 4096
                            + (b2 - 0x80) * 64 + (b3 - 0x80))
                           :: utf8_decode r3
                      else 0xFFFD :: utf8_decode r2
                    end
             end
      end
    else 0xFFFD :: utf8_decode r0
  end.

(** *** Percent-encoding *)

(** The characters [quote] never escapes: ASCII letters, digits and [_.-~]. *)
Definition always_safe (b : N) : bool :=
  is_ascii_alpha b || is_ascii_digit b
  || (b =? 0x5F) || (b =? 0x2E) || (b =? 0x2D) || (b =? 0x7E).

(** [quote_plus] on one byte of the encoded string. *)
Definition quote_plus_byte (b : N) : str :=
  if always_safe b then [b]
  else if b =? 0x20 then lit "+"
  else [0x25; hexdigit (b / 16); hexdigit (b mod 16)].

(** [quote_plus(s)] with the defaults [safe=""], UTF-8, strict errors. *)
Definition quote_plus (s : str) : option str :=
  bs ← utf8_encode s; Some (flat_map quote_plus_byte bs).

(** The percent-decoding of an ASCII run: [%XX] becomes the byte [XX]; a
    [%] not followed by two hexadecimal digits is kept. *)
Fixpoint percent_decode (s : list N) : list N :=
  match s with
  | [] => []
  | c :: s' =>
    if c =? 0x25 then
      match s' with
      | h1 :: h2 :: s'' =>
        match hexval h1, hexval h2 with
        | Some a, Some b => (16 * a + b) :: percent_decode s''
        | _, _ => c :: percent_decode s'
        end
      | _ => c :: percent_decode s'
      end
    else c :: percent_decode s'
  end.

(** The generator of [unquote]: each maximal ASCII run is percent-decoded
    and the bytes are decoded as UTF-8 with replacement; the characters
    between the runs are kept.  [run] is the ASCII run read so far. *)
Fixpoint unquote_parts (run : str) (s : str) : str :=
  match s with
  | [] => utf8_decode (percent_decode run)
  | c :: s' =>
    if c <? 0x80 then unquote_parts (run ++ [c]) s'
    else utf8_decode (percent_decode run) ++ c :: unquote_parts [] s'
  end.

(** [unquote(s)] with the defaults UTF-8 and [errors="replace"]. *)
Definition unquote (s : str) : str :=
  if negb (has_char 0x25 s) then s else unquote_parts [] s.

(** The replacement of [+] by a space made by [unquote_plus]. *)
Definition plus_to_space (c : char) : char := if c =? 0x2B then 0x20 else c.

(** [unquote_plus(s)]: [unquote(s.replace("+", " "))] *)
Definition unquote_plus (s : str) : str := unquote (map plus_to_space s).

(** [parse_qsl(qs)] with its defaults ([keep_blank_values=False], separator
    [&]): the fields with a non-empty value, in order of appearance. *)
Definition parse_qsl (qs : str) : list (str * str) :=
  if negb (str_truthy qs) then []
  else
    omap (fun name_value =>
            if str_truthy name_value then
              let '(name, _, val) := partition 0x3D name_value in
              if str_truthy val
              then Some (unquote_plus name, unquote_plus val)
              else None
            else None)
         (split_on 0x26 qs).

(** An ordered dictionary with string keys and values: its items in
    insertion order, each key once. *)
Abbreviation odict := (list (str * str)).

(** [d[k] = v]: an existing key keeps its position. *)
Fixpoint odict_set (k v : str) (d : odict) : odict :=
  match d with
  | [] => [(k, v)]
  | (k', v') :: d' =>
      if decide (k' = k) then (k', v) :: d' else (k', v') :: odict_set k v d'
  end.

(** [d[k]], [None] for a missing key. *)
Fixpoint odict_lookup (k : str) (d : odict) : option str :=
  match d with
  | [] => None
  | (k', v') :: d' => if decide (k' = k) then Some v' else odict_lookup k d'
  end.

(** [dict(pairs)] *)
Definition dict_of_pairs (pairs : list (str * str)) : odict :=
  fold_left (fun d kv => odict_set kv.1 kv.2 d) pairs [].

(** [urlencode(d)] for a dictionary of strings, with its defaults; [None]
    stands for the [UnicodeEncodeError] of [quote_plus]. *)
Definition urlencode (d : odict) : option str :=
  l ← mapM (fun kv => k ← quote_plus kv.1; v ← quote_plus kv.2;
                      Some (k ++ lit "=" ++ v)) d;
  Some (join (lit "&") l).

(** *** Splitting and joining URLs *)

Record ParseResult : Type := mkParseResult {
  scheme : str;
  netloc : str;
  path : str;
  params : str;
  query : str;
  fragment : str
}.

(** [parsed._replace(query=q)] *)
Definition replace_query (p : ParseResult) (q : str) : ParseResult :=
  {| scheme := scheme p; netloc := netloc p; path := path p;
     params := params p; query := q; fragment := fragment p |}.

Definition uses_netloc : list str :=
  [ lit ""; lit "ftp"; lit "http"; lit "gopher"; lit "nntp"; lit "telnet";
    lit "imap"; lit "wais"; lit "file"; lit "mms"; lit "https"; lit "shttp";
    lit "snews"; lit "prospero"; lit "rtsp"; lit "rtsps"; lit "rtspu";
    lit "rsync"; lit "svn"; lit "svn+ssh"; lit "sftp"; lit "nfs"; lit "git";
    lit "git+ssh"; lit "ws"; lit "wss"; lit "itms-services" ].

Definition uses_params : list str :=
  [ lit ""; lit "ftp"; lit "hdl"; lit "prospero"; lit "http"; lit "imap";
    lit "https"; lit "shttp"; lit "rtsp"; lit "rtsps"; lit "rtspu"; lit "sip";
    lit "sips"; lit "mms"; lit "sftp"; lit "tel" ].

(** [scheme_chars]: ASCII letters, digits and [+-.]. *)
Definition is_scheme_char (c : char) : bool :=
  is_ascii_alpha c || is_ascii_digit c
  || (c =? 0x2B) || (c =? 0x2D) || (c =? 0x2E).

(** The two library functions consulted by the validation of the authority
    part, left abstract: whether [ipaddress.ip_address] accepts a text as an
    IPv6 address, and [unicodedata.normalize("NFKC", _)]. *)
Class HostChecks : Type := {
  ipv6_address : str -> bool;
  nfkc : str -> str
}.

(** The longest prefix without a character of the class, and the rest. *)
Fixpoint span_until (p : char -> bool) (s : str) : str * str :=
  match s with
  | [] => ([], [])
  | c :: s' =>
      if p c then ([], s)
      else let '(a, b) := span_until p s' in (c :: a, b)
  end.

(** [_splitnetloc(url, 2)]: the authority ends at the first of [/?#]. *)
Definition splitnetloc (url : str) : str * str :=
  span_until (fun c => (c =? 0x2F) || (c =? 0x3F) || (c =? 0x23)) (drop 2 url).

(** The scheme test of [urlsplit]: a colon not in first position, preceded
    by an ASCII letter and then scheme characters only. *)
Definition split_scheme (url : str) : str * str :=
  match find_char 0x3A url with
  | Some (S i) =>
      if match url with c :: _ => is_ascii_alpha c | [] => false end
         && forallb is_scheme_char (take (S i) url)
      then (lower (take (S i) url), drop (S (S i)) url)
      else ([], url)
  | _ => ([], url)
  end.

(** [_splitparams(url)] *)
Definition splitparams (url : str) : str * str :=
  match rfind_char 0x2F url with
  | Some j =>
      match find_char 0x3B (drop j url) with
      | Some i => (take (j + i) url, drop (S (j + i)) url)
      | None => (url, [])
      end
  | None =>
      match find_char 0x3B url with
      | Some i => (take i url, drop (S i) url)
      | None => (removelast url, url)
      end
  end.

Section Urllib.
Context `{HostChecks}.

(** [_check_bracketed_host]: an IPvFuture literal [v<hex>+.<any>+] or an
    IPv6 address. *)
Definition check_bracketed_host (hostname : str) : bool :=
  if starts_with (lit "v") hostname then
    let '(hex, tl) := span_until (fun c => negb (is_hex c)) (drop 1 hostname) in
    str_truthy hex && starts_with (lit ".") tl && str_truthy (drop 1 tl)
    && forallb (fun c => negb (c =? 0x0A)) (drop 1 tl)
  else ipv6_address hostname.

(** [_checknetloc]: a non-ASCII authority must not gain a URL delimiter
    under NFKC normalization. *)
Definition checknetloc (netloc : str) : bool :=
  if negb (str_truthy netloc) || forallb (fun c => c <? 0x80) netloc then true
  else
    let n := filter (fun c => c ∉ [0x40; 0x3A; 0x23; 0x3F]) netloc in
    let netloc2 := nfkc n in
    if decide (n = netloc2) then true
    else forallb (fun c => negb (has_char c netloc2)) [0x2F; 0x3F; 0x23; 0x40; 0x3A].

(** [urlsplit(url)]: scheme, netloc, path, query, fragment; [None] stands
    for [ValueError]. *)
Definition urlsplit (url : str) : option (str * str * str * str * str) :=
  let url := drop_while (fun c => c <=? 0x20) url in
  let url := filter (fun c => c ∉ [0x09; 0x0D; 0x0A]) url in
  let '(scheme, url) := split_scheme url in
  let '(netloc, url) :=
    if starts_with (lit "//") url then splitnetloc url else ([], url) in
  let brackets_ok :=
    if has_char 0x5B netloc && has_char 0x5D netloc
    then check_bracketed_host ((partition 0x5D (partition 0x5B netloc).2).1.1)
    else negb (has_char 0x5B netloc || has_char 0x5D netloc) in
  let '(url, _, fragment) := partition 0x23 url in
  let '(url, _, query) := partition 0x3F url in
  if brackets_ok && checknetloc netloc
  then Some (scheme, netloc, url, query, fragment)
  else None.

(** [urlparse(url)] *)
Definition urlparse (url : str) : option ParseResult :=
  '(scheme, netloc, url, query, fragment) ← urlsplit url;
  let '(url, params) :=
    if bool_decide (scheme ∈ uses_params) && has_char 0x3B url
    then splitparams url else (url, []) in
  Some (mkParseResult scheme netloc url params query fragment).

(** [urlunsplit] *)
Definition urlunsplit (scheme netloc url query fragment : str) : str :=
  let url :=
    if str_truthy netloc then
      lit "//" ++ netloc ++
      (if str_truthy url && negb (starts_with (lit "/") url)
       then lit "/" ++ url else url)
    else if starts_with (lit "//") url then lit "//" ++ url
    else if str_truthy scheme && bool_decide (scheme ∈ uses_netloc)
            && (negb (str_truthy url) || starts_with (lit "/") url)
    then lit "//" ++ url
    else url in
  let url := if str_truthy scheme then scheme ++ lit ":" ++ url else url in
  let url := if str_truthy query then url ++ lit "?" ++ query else url in
  if str_truthy fragment then url ++ lit "#" ++ fragment else url.

(** [urlunparse] *)
Definition urlunparse (p : ParseResult) : str :=
  let url :=
    if str_truthy (params p) then path p ++ lit ";" ++ params p else path p in
  urlunsplit (scheme p) (netloc p) url (query p) (fragment p).

(** ** [build_page_url]

    [None] stands for an exception raised by a library call ([ValueError]
    of [urlparse], [UnicodeEncodeError] of [urlencode]). *)
Definition build_page_url (base_url : str) (page : Z) : option str :=
  if (page <=? 1)%Z then Some base_url
  else
    parsed ← urlparse base_url;
    let query := dict_of_pairs (parse_qsl (query parsed)) in
    let query := odict_set (lit "page") (str_of_int page) query in
    new_query ← urlencode query;
    Some (urlunparse (replace_query parsed new_query)).

End Urllib.

(** ** Effects: requests, pauses and exceptions *)

(** [DEFAULT_HEADERS] *)
Definition DEFAULT_HEADERS : list (str * str) :=
  [ (lit "User-Agent",
     lit "Mozilla/5.0 (X11; Linux x86_64) AppleWebKit/537.36 "
     ++ lit "(KHTML, like Gecko) Chrome/120.0 Safari/537.36") ].

(** What [requests.get] raises without a response (connection failure,
    timeout, ...). *)
Inductive request_error : Type :=
  | ConnectionError
  | Timeout.

(** The exceptions of the pipeline. *)
Inductive exn : Type :=
  | UrlError                          (* raised inside [build_page_url] *)
  | RequestException (e : request_error)
  | HTTPError (status : Z).           (* raised by [raise_for_status] *)

Record response : Type := mkResponse {
  status_code : Z;
  text : str
}.

Inductive outcome : Type :=
  | Raised (e : request_error)
  | Responded (r : response).

(** The operations of BeautifulSoup used by [parse_listings], left abstract:
    parsing a document, CSS selection, text extraction with [strip=True] and
    attribute lookup. *)
Class HtmlParser : Type := {
  element : Type;
  BeautifulSoup : str -> element;
  select : element -> str -> list element;
  select_one : element -> str -> option element;
  get_text_strip : element -> str;
  get_attr : element -> str -> option str
}.

(** ** [parse_listings] *)
Definition parse_listings `{HtmlParser} (html item_type : str) : list row :=
  let soup := BeautifulSoup html in
  let cards := select soup (lit "div.card.ad__card") in
  fold_left
    (fun records card =>
       let price_el := select_one card (lit "p.ad__card-price a") in
       let location_el := select_one card (lit "p.ad__card-location span") in
       let image_el := select_one card (lit "img.ad__card-img") in
       let price_text :=
         match price_el with Some el => get_text_strip el | None => lit "" end in
       let location_text :=
         match location_el with Some el => get_text_strip el | None => lit "" end in
       let image_src :=
         match image_el with
         | Some el => default (lit "") (get_attr el (lit "src"))
         | None => lit ""
         end in
       records ++
       [ <[lit "image_lien" := VStr image_src]>
         (<[lit "adresse" := VStr location_text]>
         (<[lit "prix" := VStr price_text]>
         (<[lit "type" := VStr item_type]> ∅))) ])
    cards [].

Section Scraper.
Context `{HostChecks} `{HtmlParser}.

(** The type of [delay_seconds], a non-negative duration. *)
Variable duration : Type.

(** What the process does to the outside world. *)
Inductive event : Type :=
  | EvGet (url : str) (headers : list (str * str)) (timeout : Z)
  | EvSleep (d : duration).

(** The remote site: what the request for [url] yields after the events
    already performed. *)
Variable network : list event -> str -> outcome.

(** A computation reads and extends the trace of events and either
    returns a value or raises. *)
Definition io (A : Type) : Type := list event -> (exn + A) * list event.

Definition io_ret {A} (x : A) : io A := fun tr => (inr x, tr).

Definition io_bind {A B} (f : A -> io B) (m : io A) : io B :=
  fun tr =>
    match m tr with
    | (inl e, tr') => (inl e, tr')
    | (inr x, tr') => f x tr'
    end.

Definition io_raise {A} (e : exn) : io A := fun tr => (inl e, tr).

#[local] Instance io_mret : MRet io := @io_ret.
#[local] Instance io_mbind : MBind io := @io_bind.

(** [requests.get(url, headers=DEFAULT_HEADERS, timeout=timeout)] *)
Definition requests_get (url : str) (timeout : Z) : io response :=
  fun tr =>
    let tr' := tr ++ [EvGet url DEFAULT_HEADERS timeout] in
    match network tr url with
    | Raised e => (inl (RequestException e), tr')
    | Responded r => (inr r, tr')
    end.

(** [response.raise_for_status()]: raises for the statuses 400 to 599. *)
Definition raise_for_status (r : response) : io unit :=
  if ((400 <=? status_code r) && (status_code r <? 600))%Z
  then io_raise (HTTPError (status_code r))
  else mret ().

(** [time.sleep(d)] *)
Definition sleep (d : duration) : io unit :=
  fun tr => (inr (), tr ++ [EvSleep d]).

(** [fetch_html(url)], with the default [timeout=20]. *)
Definition fetch_html (url : str) : io str :=
  response ← requests_get url 20;
  _ ← raise_for_status response;
  mret (text response).

(** The loop of [scrape_category] over the remaining page numbers. *)
Fixpoint scrape_pages (base_url item_type : str) (pages : Z)
    (delay_seconds : duration) (todo : list Z) (results : list row)
    : io (list row) :=
  match todo with
  | [] => mret results
  | page :: todo' =>
      url ← (match build_page_url base_url page with
             | Some url => mret url
             | None => io_raise UrlError
             end);
      html ← fetch_html url;
      let results := results ++ parse_listings html item_type in
      _ ← (if (page <? pages)%Z then sleep delay_seconds else mret ());
      scrape_pages base_url item_type pages delay_seconds todo' results
  end.

(** [scrape_category(base_url, item_type, pages, delay_seconds)] *)
Definition scrape_category (base_url item_type : str) (pages : Z)
    (delay_seconds : duration) : io (list row) :=
  let pages := Z.max 1 pages in
  scrape_pages base_url item_type pages delay_seconds (seqZ 1 pages) [].

End Scraper.

(** ** [CATEGORIES] and [scrape_multiple] of [app.py] *)

(** [d[k]] for a dictionary given by its items in insertion order; [None]
    stands for [KeyError]. *)
Fixpoint dict_item {V : Type} (d : list (str * V)) (k : str) : option V :=
  match d with
  | [] => None
  | (k', v) :: d' => if decide (k' = k) then Some v else dict_item d' k
  end.

(** [CATEGORIES]: the categories to scrape, each with its label, its URL
    and the type given to its listings. *)
Definition CATEGORIES : list (str * odict) :=
  [ (lit "vetements-homme",
     [ (lit "label", lit "Vetements homme");
       (lit "url", lit "https://sn.coinafrique.com/categorie/vetements-homme");
       (lit "type", lit "habits") ]);
    (lit "chaussures-homme",
     [ (lit "label", lit "Chaussures homme");
       (lit "url", lit "https://sn.coinafrique.com/categorie/chaussures-homme");
       (lit "type", lit "chaussures") ]);
    (lit "vetements-enfants",
     [ (lit "label", lit "Vetements enfants");
       (lit "url", lit "https://sn.coinafrique.com/categorie/vetements-enfants");
       (lit "type", lit "habits") ]);
    (lit "chaussures-enfants",
     [ (lit "label", lit "Chaussures enfants");
       (lit "url", lit "https://sn.coinafrique.com/categorie/chaussures-enfants");
       (lit "type", lit "chaussures") ]) ].

(** What [scrape_multiple] raises: a [KeyError] of a dictionary lookup, or
    an exception of [scrape_category]. *)
Inductive app_exn : Type :=
  | KeyError (key : str)
  | ScrapeError (e : exn).

Section App.
Context `{HostChecks} `{HtmlParser}.
Variable duration : Type.
Variable network : list (event duration) -> str -> outcome.

(** The default value [0.6] of [delay_seconds]. *)
Variable default_delay : duration.

(** The loop of [scrape_multiple] over the remaining keys: the records
    gathered so far and the trace of events are passed along. *)
Fixpoint scrape_keys (pages : Z) (categories : list str) (records : list row)
    (tr : list (event duration))
    : (app_exn + list row) * list (event duration) :=
  match categories with
  | [] => (inr records, tr)
  | key :: categories' =>
      match dict_item CATEGORIES key with
      | None => (inl (KeyError key), tr)
      | Some meta =>
          match odict_lookup (lit "url") meta with
          | None => (inl (KeyError (lit "url")), tr)
          | Some url =>
              match odict_lookup (lit "type") meta with
              | None => (inl (KeyError (lit "type")), tr)
              | Some type =>
                  match scrape_category duration network url type pages
                          default_delay tr with
                  | (inl e, tr') => (inl (ScrapeError e), tr')
                  | (inr items, tr') =>
                      let items :=
                        (fun item : row => <[lit "categorie" := VStr key]> item)
                          <$> items in
                      scrape_keys pages categories' (records ++ items) tr'
                  end
              end
          end
      end
  end.

(** The body of [scrape_multiple(categories, pages)]; the result is the
    list of records the data frame is made of.  (The function is wrapped by
    [st.cache_data], which answers a repeated call from its cache without
    running the body.) *)
Definition scrape_multiple (categories : list str) (pages : Z)
    : list (event duration) -> (app_exn + list row) * list (event duration) :=
  scrape_keys pages categories [].

End App.

(** ** Statements of the specification, as definitions *)

(** The price parsing rule in the words of the specification: absent when
    the lower-cased text mentions a price on request; otherwise the digits of
    the text, concatenated and read as an integer, absent when there is no
    digit. *)
Definition mentions_request (price_text : str) : bool :=
  contains (lit "prix sur demande") (lower price_text)
  || contains (lit "sur demande") (lower price_text).

(** The digits of a text, as numbers. *)
Definition digits_of (price_text : str) : list N := omap to_decimal price_text.

(** The number written in base ten by a sequence of digits: each digit
    counts for its value times the power of ten of its position. *)
Fixpoint decimal_reading (digits : list N) : N :=
  match digits with
  | [] => 0
  | d :: digits' => d * 10 ^ N.of_nat (length digits') + decimal_reading digits'
  end.

Definition price_rule (price_text : str) : option Z :=
  if mentions_request price_text then None
  else
    match digits_of price_text with
    | [] => None
    | d :: ds => Some (Z.of_N (decimal_reading (d :: ds)))
    end.

(** The claim that [clean_price] returns what the rule says. *)
Definition follows_price_rule (price_text : str) : Prop :=
  clean_price price_text = Some (price_rule price_text).

(** The claim that [clean_records] returns as many records as it is given. *)
Definition returns_same_length (records : list row) : Prop :=
  exists cleaned, clean_records records = Some cleaned
                  /\ length cleaned = length records.

(** A text [clean_price] reads without an exception: it mentions a price
    on request or has at most [max_str_digits] decimal digits. *)
Definition price_readable (price_text : str) : bool :=
  mentions_request price_text
  || (N.of_nat (length (digits_of price_text)) <=? max_str_digits).

(** A value [str] writes without an exception. *)
Definition writable (v : value) : bool :=
  match v with
  | VInt n => (Z.abs n <? 10 ^ Z.of_N max_str_digits)%Z
  | _ => true
  end.

(** A record [clean_records] cleans without an exception: the five fields
    it reads can be written by [str], and the price text can be read. *)
Definition cleanable (r : row) : bool :=
  forallb (fun k => writable (dict_get r k (VStr (lit ""))))
    [lit "prix"; lit "categorie"; lit "type"; lit "adresse"; lit "image_lien"]
  && match py_str (dict_get r (lit "prix") (VStr (lit ""))) with
     | Some prix_text => price_readable (normalize_whitespace prix_text)
     | None => false
     end.

(** Every whitespace character of [s] is a space [U+0020] followed by a
    character that is not whitespace. *)
Fixpoint single_spaces (s : str) : bool :=
  match s with
  | [] => true
  | c :: s' =>
      (if isspace c
       then (c =? 0x20)
            && match s' with d :: _ => negb (isspace d) | [] => false end
       else true)
      && single_spaces s'
  end.

(** A whitespace-normalized string: it does not start or end with
    whitespace, and its whitespace consists of single spaces. *)
Definition ws_normalized (s : str) : bool :=
  match s with c :: _ => negb (isspace c) | [] => true end && single_spaces s.

(** What a text field of a cleaned record may hold: absent, or a non-empty
    whitespace-normalized string. *)
Definition text_field_ok (v : value) : Prop :=
  match v with
  | VNone => True
  | VStr s => s <> [] /\ ws_normalized s = true
  | VInt _ => False
  end.

(** The [type] field is moreover in lower case. *)
Definition type_field_ok (v : value) : Prop :=
  match v with
  | VNone => True
  | VStr s => s <> [] /\ ws_normalized s = true /\ lower s = s
  | VInt _ => False
  end.

(** The [prix] field: absent or a non-negative integer. *)
Definition price_field_ok (v : value) : Prop :=
  match v with
  | VNone => True
  | VStr _ => False
  | VInt n => (0 <= n)%Z
  end.

(** The shape of a cleaned record: exactly the six fields, each absent or
    of its kind. *)
Definition cleaned_ok (r : row) : Prop :=
  dom r = {[ lit "type"; lit "prix_brut"; lit "prix"; lit "adresse";
             lit "image_lien"; lit "categorie" ]}
  /\ (exists v, r !! lit "type" = Some v /\ type_field_ok v)
  /\ (exists v, r !! lit "prix_brut" = Some v /\ text_field_ok v)
  /\ (exists v, r !! lit "prix" = Some v /\ price_field_ok v)
  /\ (exists v, r !! lit "adresse" = Some v /\ text_field_ok v)
  /\ (exists v, r !! lit "image_lien" = Some v /\ text_field_ok v)
  /\ (exists v, r !! lit "categorie" = Some v /\ text_field_ok v).

(** The price component of a deduplication key. *)
Definition key_price (k : dedup_key_t) : value := k.1.1.1.2.

(** In a cleaned record, a present price comes with its raw text, which is
    then the price component of the deduplication key. *)
Definition price_has_raw (r : row) : Prop :=
  match dict_get_none r (lit "prix") with
  | VInt n =>
      exists s, dict_get_none r (lit "prix_brut") = VStr s
                /\ s <> [] /\ clean_price s = Some (Some n)
                /\ key_price (dedup_key r) = VStr s
  | _ => True
  end.




(** ** Notions used in the proofs *)

(** What [clean_price] returns when [int] accepts the digits. *)
Definition parsed_price (price_text : str) : option Z :=
  if negb (str_truthy price_text) then None
  else if mentions_request price_text then None
  else
    let digits := re_sub_class (fun c => negb (isdecimal c)) (lit "") price_text in
    if str_truthy digits then Some (digits_value digits) else None.

(** What [str] returns when it accepts the value. *)
Definition str_text (v : value) : str :=
  match v with
  | VNone => lit "None"
  | VStr s => s
  | VInt n => str_of_int n
  end.

(** The cleaned text of the field [k] of a record. *)
Definition field_text (r : row) (k : str) : str :=
  normalize_whitespace (str_text (dict_get r k (VStr (lit "")))).

(** What [clean_records] appends for a record it cleans without exception. *)
Definition cleaned_row (r : row) : row :=
  <[lit "categorie" := py_or (VStr (field_text r (lit "categorie"))) VNone]>
  (<[lit "image_lien" := py_or (VStr (field_text r (lit "image_lien"))) VNone]>
  (<[lit "adresse" := py_or (VStr (field_text r (lit "adresse"))) VNone]>
  (<[lit "prix" := value_of_price (parsed_price (field_text r (lit "prix")))]>
  (<[lit "prix_brut" := py_or (VStr (field_text r (lit "prix"))) VNone]>
  (<[lit "type" := py_or (VStr (lower (field_text r (lit "type")))) VNone]> ∅))))).

(** The code points the lower-case table changes. *)
Definition run_keys (run : N * N * N * N) : list N :=
  let '(first, last, step, _) := run in
  (fun k => first + step * N.of_nat k) <$> seq 0 (S (N.to_nat ((last - first) / step))).

Definition lower_keys : list N := flat_map run_keys lower_runs.

(** A code point [str.lower()] leaves as it is, in any context. *)
Definition is_lowered (c : char) : bool :=
  negb (c =? 0x3A3) && negb (c =? 0x130) && (to_lower c =? c).

(** Every whitespace character of [s] is a space [U+0020] that is not
    followed by another whitespace character. *)
Fixpoint collapsed (s : str) : bool :=
  match s with
  | [] => true
  | c :: s' =>
      (if isspace c
       then (c =? 0x20)
            && match s' with d :: _ => negb (isspace d) | [] => true end
       else true)
      && collapsed s'
  end.

(** The records [dedupe_records] appends while reading [records] with the
    keys [seen] already recorded. *)
Fixpoint dedupe_from (seen : gset dedup_key_t) (records : list row) : list row :=
  match records with
  | [] => []
  | r :: records' =>
      if decide (dedup_key r ∈ seen) then dedupe_from seen records'
      else r :: dedupe_from ({[ dedup_key r ]} ∪ seen) records'
  end.

(** The events of a run that fetched the first [n] pages, each followed by
    the pause, starting from the trace [tr]; [url j] is the address of
    page [j]. *)
Definition after_pages {duration : Type} (url : Z -> str) (d : duration)
    (tr : list (event duration)) (n : Z) : list (event duration) :=
  tr ++ flat_map (fun j => [EvGet duration (url j) DEFAULT_HEADERS 20;
                            EvSleep duration d])
                 (seqZ 1 n).



















(** A record as [parse_listings] makes it for [item_type]: the four fields,
    all strings. *)
Definition listing_ok (item_type : str) (r : row) : Prop :=
  dom r = {[ lit "type"; lit "prix"; lit "adresse"; lit "image_lien" ]}
  /\ r !! lit "type" = Some (VStr item_type)
  /\ exists price location image : str,
       r !! lit "prix" = Some (VStr price)
       /\ r !! lit "adresse" = Some (VStr location)
       /\ r !! lit "image_lien" = Some (VStr image).

(** A record as [scrape_multiple] returns it for one of the keys
    [categories]: a listing of the type of that category, tagged with the
    key. *)
Definition tagged_listing (categories : list str) (r : row) : Prop :=
  exists (key : str) (meta : odict) (type : str),
    key ∈ categories
    /\ dict_item CATEGORIES key = Some meta
    /\ odict_lookup (lit "type") meta = Some type
    /\ r !! lit "categorie" = Some (VStr key)
    /\ r !! lit "type" = Some (VStr type)
    /\ dom r = {[ lit "type"; lit "prix"; lit "adresse"; lit "image_lien";
                  lit "categorie" ]}.

(** ** Concrete inputs and surroundings, for running the model *)

(** A raw record whose price is [None]. *)
Definition row_price_none : row :=
  <[lit "image_lien" := VStr (lit "https://img/1.jpg")]>
  (<[lit "adresse" := VStr (lit "Dakar")]>
  (<[lit "prix" := VNone]>
  (<[lit "type" := VStr (lit "habits")]> ∅))).

(** The same record with the empty string as price. *)
Definition row_price_empty : row :=
  <[lit "prix" := VStr (lit "")]> row_price_none.

(** Two listings that differ in their image only. *)
Definition listing_a : row :=
  <[lit "categorie" := VStr (lit "vetements-homme")]>
  (<[lit "image_lien" := VStr (lit "https://img/1.jpg")]>
  (<[lit "adresse" := VStr (lit "Dakar")]>
  (<[lit "prix" := VInt 25000]>
  (<[lit "prix_brut" := VStr (lit "25 000 FCFA")]>
  (<[lit "type" := VStr (lit "habits")]> ∅))))).

Definition listing_b : row :=
  <[lit "image_lien" := VStr (lit "https://img/1_2.jpg")]> listing_a.

Definition category_url : str :=
  lit "https://sn.coinafrique.com/categorie/vetements-homme".


(** Stand-ins for the abstract library functions, for URLs whose authority
    is ASCII without brackets (neither function is consulted on them). *)
Definition plain_hosts : HostChecks :=
  {| ipv6_address := fun _ => false; nfkc := fun s => s |}.

(** A parser that finds no card in any document. *)
Definition no_cards : HtmlParser :=
  {| element := unit;
     BeautifulSoup := fun _ => tt;
     select := fun _ _ => [];
     select_one := fun _ _ => None;
     get_text_strip := fun _ => [];
     get_attr := fun _ _ => None |}.

(** A site that serves the first request and answers 404 afterwards. *)
Definition second_page_missing (tr : list (event N)) (url : str) : outcome :=
  match tr with
  | [] => Responded (mkResponse 200 (lit "<html></html>"))
  | _ => Responded (mkResponse 404 (lit "Not Found"))
  end.


(** A parser for which every document is one card, whose price and location
    texts are the document itself and whose image has no [src]. *)
Definition one_card : HtmlParser :=
  {| element := str;
     BeautifulSoup := fun html => html;
     select := fun el _ => [el];
     select_one := fun el _ => Some el;
     get_text_strip := fun el => el;
     get_attr := fun _ _ => None |}.

(** A site that serves every request with the same document. *)
Definition always_found (tr : list (event N)) (url : str) : outcome :=
  Responded (mkResponse 200 (lit "12 000 CFA")).

(** The record [scrape_multiple] returns for the one card of a document
    served by [always_found], in the category [vetements-homme]. *)
Definition tagged_card : row :=
  <[lit "categorie" := VStr (lit "vetements-homme")]>
  (<[lit "image_lien" := VStr (lit "")]>
  (<[lit "adresse" := VStr (lit "12 000 CFA")]>
  (<[lit "prix" := VStr (lit "12 000 CFA")]>
  (<[lit "type" := VStr (lit "habits")]> ∅)))).

(** The cleaned form of [tagged_card]. *)
Definition cleaned_card : row :=
  <[lit "categorie" := VStr (lit "vetements-homme")]>
  (<[lit "image_lien" := VNone]>
  (<[lit "adresse" := VStr (lit "12 000 CFA")]>
  (<[lit "prix" := VInt 12000]>
  (<[lit "prix_brut" := VStr (lit "12 000 CFA")]>
  (<[lit "type" := VStr (lit "habits")]> ∅))))).

(** A price text of 4301 digits, and a record with that price. *)
Definition long_price : str := repeat 0x39 4301.

Definition row_long_price : row :=
  <[lit "prix" := VStr long_price]> row_price_none.
(** * Properties *)

(** ** Price parsing *)

Lemma re_sub_class_delete (cls : char -> bool) (s : str) :
  re_sub_class cls (lit "") s = filter (fun c => cls c = false) s.
Proof.
  unfold re_sub_class. induction s as [|c s IH]; [reflexivity|].
  cbn [flat_map]. rewrite filter_cons, IH.
  destruct (cls c) eqn:E; cbn.
  - destruct (decide (true = false)); [discriminate|reflexivity].
  - destruct (decide (false = false)); [reflexivity|contradiction].
Qed.

Lemma keep_digits_filter (s : str) :
  re_sub_class (fun c => negb (isdecimal c)) (lit "") s
  = filter (fun c => isdecimal c = true) s.
Proof.
  rewrite re_sub_class_delete. induction s as [|c s IH]; [reflexivity|].
  rewrite !filter_cons, IH.
  destruct (isdecimal c); cbn; repeat case_decide; congruence.
Qed.

Lemma digits_value_nonneg (digits : str) : (0 <= digits_value digits)%Z.
Proof. unfold digits_value. lia. Qed.

(** Reading one more digit multiplies by ten and adds the digit's value. *)
Lemma digits_value_snoc (digits : str) (c : char) :
  digits_value (digits ++ [c])
  = (10 * digits_value digits + Z.of_N (default 0%N (to_decimal c)))%Z.
Proof. unfold digits_value. rewrite fold_left_app. cbn. lia. Qed.

(** *** The digits of a text and the number they write *)

Lemma digits_of_filter (s : str) :
  digits_of (filter (fun c => isdecimal c = true) s) = digits_of s.
Proof.
  unfold digits_of. induction s as [|c s IH]; [reflexivity|].
  destruct (isdecimal c) eqn:Hd.
  - rewrite filter_cons_True by exact Hd. cbn [omap list_omap]. by rewrite IH.
  - rewrite filter_cons_False by by rewrite Hd. cbn [omap list_omap].
    unfold isdecimal in Hd. by destruct (to_decimal c).
Qed.

Lemma digits_of_length (s : str) :
  Forall (fun c => isdecimal c = true) s -> length (digits_of s) = length s.
Proof.
  unfold digits_of. induction 1 as [|c s Hc Hs IH]; [reflexivity|].
  unfold isdecimal in Hc. cbn [omap list_omap].
  destruct (to_decimal c); [|discriminate]. cbn [length]. by rewrite IH.
Qed.

Lemma filter_decimal_Forall (s : str) :
  Forall (fun c => isdecimal c = true) (filter (fun c => isdecimal c = true) s).
Proof. apply Forall_forall. intros c Hc. by apply list_elem_of_filter in Hc as [Hc _]. Qed.

Lemma digits_of_filter_length (s : str) :
  length (filter (fun c => isdecimal c = true) s) = length (digits_of s).
Proof.
  rewrite <- (digits_of_filter s). symmetry.
  apply digits_of_length, filter_decimal_Forall.
Qed.

(** Reading the digits from the left, an accumulator being multiplied by
    ten at each digit, gives the positional reading. *)
Lemma fold_digits_reading (s : str) (acc : N) :
  Forall (fun c => isdecimal c = true) s ->
  fold_left (fun a c => 10 * a + default 0 (to_decimal c)) s acc
  = acc * 10 ^ N.of_nat (length s) + decimal_reading (digits_of s).
Proof.
  intros Hs. revert acc. induction Hs as [|c s Hc Hs IH]; intros acc.
  - cbn. lia.
  - cbn [fold_left]. rewrite IH. pose proof (digits_of_length s Hs) as Hlen.
    unfold digits_of in *. unfold isdecimal in Hc. cbn [omap list_omap].
    destruct (to_decimal c) as [d|]; [|discriminate].
    cbn [default decimal_reading length]. unfold id. rewrite Hlen.
    rewrite Nat2N.inj_succ, N.pow_succ_r'. lia.
Qed.

Lemma digits_value_reading (s : str) :
  digits_value (filter (fun c => isdecimal c = true) s)
  = Z.of_N (decimal_reading (digits_of s)).
Proof.
  unfold digits_value. rewrite fold_digits_reading by apply filter_decimal_Forall.
  by rewrite digits_of_filter.
Qed.

(** *** [clean_price] and the rule *)

Lemma parsed_price_rule (s : str) : parsed_price s = price_rule s.
Proof.
  unfold parsed_price, price_rule.
  destruct (mentions_request s); [by destruct (negb (str_truthy s))|].
  rewrite keep_digits_filter.
  pose proof (digits_of_filter_length s) as Hlen.
  pose proof (digits_value_reading s) as Hval.
  destruct (filter (fun c => isdecimal c = true) s) as [|c t].
  - destruct (digits_of s); [|discriminate]. by destruct (negb (str_truthy s)).
  - destruct s as [|c0 s]; [discriminate|]. cbn [str_truthy negb].
    rewrite Hval. by destruct (digits_of (c0 :: s)).
Qed.

(** [clean_price] raises exactly on the texts that are not readable, and
    returns the parsed price on the others. *)
Lemma clean_price_parsed (s : str) :
  clean_price s = if price_readable s then Some (parsed_price s) else None.
Proof.
  unfold clean_price, parsed_price, price_readable, mentions_request.
  destruct s as [|c0 s].
  { cbn [str_truthy negb]. change (digits_of []) with (@nil N).
    by rewrite orb_true_r. }
  cbn [str_truthy negb].
  destruct (contains _ _ || contains _ _); [reflexivity|]. cbn [orb].
  rewrite keep_digits_filter, <- digits_of_filter_length.
  destruct (filter (fun c => isdecimal c = true) (c0 :: s)) as [|c t] eqn:E;
    [reflexivity|].
  cbn [str_truthy]. unfold int_of_digits.
  rewrite N.ltb_antisym. by destruct (_ <=? _).
Qed.

Lemma price_rule_nonneg (s : str) :
  match price_rule s with Some n => (0 <= n)%Z | None => True end.
Proof.
  unfold price_rule. destruct (mentions_request s); [exact I|].
  destruct (digits_of s); [exact I | lia].
Qed.

(** C1, amended: [clean_price] follows the price parsing rule on every
    string it reads without an exception: absent when the lower-cased text
    contains "prix sur demande" or "sur demande", otherwise the non-negative
    integer written by the digits of the text, absent when the text has no
    digit; with the four listed values.  It raises [ValueError] on the
    other strings, which are those that do not mention a request and have
    more than 4300 digits. *)
Theorem clean_price_rule :
  (forall price_text : str,
      clean_price price_text
      = (if mentions_request price_text
            || (N.of_nat (length (digits_of price_text)) <=? 4300)
         then Some (price_rule price_text)
         else None)
      /\ match price_rule price_text with
         | Some n => (0 <= n)%Z
         | None => True
         end)
  /\ clean_price (lit "25 000 FCFA") = Some (Some 25000%Z)
  /\ clean_price (lit "Prix sur demande") = Some None
  /\ clean_price (lit "") = Some None
  /\ clean_price (lit "gratuit") = Some None.
Proof.
  split; [|repeat split; vm_compute; reflexivity].
  intros s. split; [|apply price_rule_nonneg].
  rewrite clean_price_parsed, parsed_price_rule. reflexivity.
Qed.

(** C1, as stated, fails: on a text of 4301 digits [clean_price] raises
    instead of returning the integer the rule gives. *)
Lemma long_price_raises : ~ follows_price_rule long_price.
Proof.
  unfold follows_price_rule.
  assert (clean_price long_price = None) as -> by (vm_compute; reflexivity).
  discriminate.
Qed.

(** The values given as examples for the cleaner. *)
Example clean_price_separators : clean_price (lit "1.500") = Some (Some 1500%Z).
Proof. vm_compute. reflexivity. Qed.

Example clean_price_request_with_digits :
  clean_price (lit "25 000 FCFA, sinon SUR DEMANDE") = Some None.
Proof. vm_compute. reflexivity. Qed.

Example lower_examples :
  lower (lit "PRIX SUR DEMANDE") = lit "prix sur demande"
  /\ lower [0x152; 0x55; 0x56; 0x52; 0x45] = [0x153; 0x75; 0x76; 0x72; 0x65]
  /\ lower [0x391; 0x3A3] = [0x3B1; 0x3C2]
  /\ lower [0x130] = [0x69; 0x307].
Proof. repeat split; vm_compute; reflexivity. Qed.

Example normalize_whitespace_dakar :
  normalize_whitespace
    (lit "  Dakar   S" ++ [0xE9] ++ lit "n" ++ [0xE9] ++ lit "gal  ")
  = lit "Dakar S" ++ [0xE9] ++ lit "n" ++ [0xE9] ++ lit "gal".
Proof. vm_compute. reflexivity. Qed.

(** ** Whitespace normalization *)

Lemma drop_while_decomp {A} (p : A -> bool) (l : list A) :
  exists w, l = w ++ drop_while p l
            /\ forallb p w = true
            /\ match drop_while p l with x :: _ => p x = false | [] => True end.
Proof.
  induction l as [|x l (w & E & Hw & Hh)]; cbn.
  - exists []. auto.
  - destruct (p x) eqn:Hx.
    + exists (x :: w). cbn. rewrite Hx, Hw. split; [congruence | auto].
    + exists []. cbn. rewrite Hx. auto.
Qed.

Lemma lstrip_head (s : str) :
  match lstrip s with c :: _ => isspace c = false | [] => True end.
Proof. destruct (drop_while_decomp isspace s) as (w & _ & _ & H). exact H. Qed.

Lemma rstrip_decomp (s : str) :
  exists w, s = rstrip s ++ w
            /\ forallb isspace w = true
            /\ match last (rstrip s) with
               | Some c => isspace c = false
               | None => True
               end.
Proof.
  unfold rstrip.
  destruct (drop_while_decomp isspace (rev s)) as (w & E & Hw & Hh).
  exists (rev w). split; [|split].
  - rewrite <- rev_app_distr, <- E. by rewrite rev_involutive.
  - rewrite forallb_forall in *. intros x Hx. apply Hw. by apply in_rev.
  - destruct (drop_while isspace (rev s)) as [|x l]; [exact I|].
    cbn [rev]. by rewrite last_snoc.
Qed.

Lemma re_sub_runs_head (s : str) :
  match re_sub_runs isspace (lit " ") true s with
  | d :: _ => isspace d = false
  | [] => True
  end.
Proof.
  induction s as [|c s IH]; cbn; [exact I|].
  destruct (isspace c) eqn:Hc; cbn; [exact IH | exact Hc].
Qed.

Lemma re_sub_runs_collapsed (s : str) (in_run : bool) :
  collapsed (re_sub_runs isspace (lit " ") in_run s) = true.
Proof.
  revert in_run. induction s as [|c s IH]; intros in_run; cbn; [reflexivity|].
  destruct (isspace c) eqn:Hc.
  - destruct in_run; cbn [app]; [apply IH|].
    pose proof (IH true) as Ht. pose proof (re_sub_runs_head s) as Hh.
    set (t := re_sub_runs isspace (lit " ") true s) in *. clearbody t.
    change (lit " " ++ t) with (0x20 :: t). cbn [collapsed].
    change (isspace 0x20) with true. change (0x20 =? 0x20) with true.
    rewrite Ht. destruct t; [reflexivity|].
    rewrite Hh. reflexivity.
  - cbn [collapsed]. rewrite Hc. apply IH.
Qed.

Lemma collapsed_tail (c : char) (s : str) :
  collapsed (c :: s) = true -> collapsed s = true.
Proof. cbn. intros H. apply andb_true_iff in H. tauto. Qed.

Lemma collapsed_drop_while (p : char -> bool) (s : str) :
  collapsed s = true -> collapsed (drop_while p s) = true.
Proof.
  induction s as [|c s IH]; [auto|]. intros Hc. cbn [drop_while].
  destruct (p c); [|exact Hc]. apply IH. by eapply collapsed_tail.
Qed.

Lemma single_spaces_of_collapsed (u w : str) :
  collapsed (u ++ w) = true ->
  match last u with Some c => isspace c = false | None => True end ->
  single_spaces u = true.
Proof.
  induction u as [|c u IH]; [reflexivity|].
  intros Hc Hl. cbn [app collapsed] in Hc. apply andb_true_iff in Hc as [Hc Hu].
  cbn [single_spaces]. apply andb_true_iff. split.
  - destruct (isspace c) eqn:Ec; [|reflexivity].
    destruct u as [|d u]; [cbn in Hl; congruence|].
    cbn [app] in Hc. exact Hc.
  - apply IH; [exact Hu|]. destruct u as [|d u]; [exact I|].
    by rewrite last_cons_cons in Hl.
Qed.

Lemma strip_normalized (s : str) :
  collapsed s = true -> ws_normalized (strip s) = true.
Proof.
  intros Hc. unfold strip, ws_normalized.
  pose proof (lstrip_head s) as Hh.
  assert (collapsed (lstrip s) = true) as Hc' by by apply collapsed_drop_while.
  destruct (rstrip_decomp (lstrip s)) as (w & E & _ & Hl).
  apply andb_true_iff. split.
  - rewrite E in Hh. destruct (rstrip (lstrip s)); [reflexivity|].
    cbn in Hh. by rewrite Hh.
  - apply (single_spaces_of_collapsed _ w); [by rewrite <- E | exact Hl].
Qed.

(** The result of [normalize_whitespace] is whitespace-normalized. *)
Lemma normalize_whitespace_normalized (value : str) :
  ws_normalized (normalize_whitespace value) = true.
Proof. apply strip_normalized, re_sub_runs_collapsed. Qed.

(** ** Lower-casing *)

(** Decides the comparisons of a goal one at a time, keeping only the cases
    that arithmetic allows. *)
Ltac split_cmp :=
  repeat match goal with
    | |- context [?a <=? ?b] =>
        destruct (N.leb_spec a b); try lia; cbn [andb orb negb]
    | |- context [?a <? ?b] =>
        destruct (N.ltb_spec a b); try lia; cbn [andb orb negb]
    | |- context [?a =? ?b] =>
        destruct (N.eqb_spec a b); try lia; cbn [andb orb negb]
    end.

Lemma isspace_false_between (c : char) :
  0x21 <= c <= 0x84 \/ 0xA1 <= c <= 0x167F -> isspace c = false.
Proof. intros H. unfold isspace, in_range. split_cmp; reflexivity. Qed.

(** A code point of a run is one of its keys. *)
Lemma in_run_keys (c : char) (run : N * N * N * N) :
  in_run c run = true -> c ∈ run_keys run.
Proof.
  destruct run as [[[first last] step] target]. unfold in_run, run_keys.
  rewrite !andb_true_iff, !N.leb_le, N.eqb_eq. intros [[Hf Hl] Hm].
  apply list_elem_of_fmap. exists (N.to_nat ((c - first) / step)). split.
  - rewrite N2Nat.id. destruct (N.eq_dec step 0) as [->|Hs].
    + rewrite N.mod_0_r in Hm. lia.
    + pose proof (N.div_mod (c - first) step Hs) as Hd. rewrite Hm in Hd.
      generalize dependent ((c - first) / step). intros q Hq.
      generalize dependent (step * q). intros; lia.
  - apply elem_of_seq. split; [apply Nat.le_0_l|].
    pose proof (N.Div0.div_le_mono (c - first) (last - first) step ltac:(lia)) as Hq.
    generalize dependent ((c - first) / step).
    generalize dependent ((last - first) / step). intros; lia.
Qed.

(** A code point the lower-case mapping changes is a key of the table. *)
Lemma to_lower_keys (c : char) : to_lower c = c \/ c ∈ lower_keys.
Proof.
  unfold to_lower. destruct (List.find (in_run c) lower_runs) as [run|] eqn:E;
    [|by left].
  right. apply find_some in E as [Hin Hrun]. unfold lower_keys.
  apply list_elem_of_In, in_flat_map. exists run. split; [exact Hin|].
  by apply list_elem_of_In, in_run_keys.
Qed.

(** A property checked on the keys of the table holds for every code point
    the mapping changes. *)
Lemma lower_keys_forall (p : char -> bool) (c : char) :
  forallb p lower_keys = true -> to_lower c = c \/ p c = true.
Proof.
  intros Hp. destruct (to_lower_keys c) as [E|Hc]; [by left|]. right.
  rewrite forallb_forall in Hp. by apply Hp, list_elem_of_In.
Qed.

Lemma lower_keys_text :
  forallb (fun c => negb (isspace c) && negb (isspace (to_lower c))) lower_keys
  = true.
Proof. vm_compute. reflexivity. Qed.

Lemma lower_keys_lowered :
  forallb (fun c => is_lowered (to_lower c)) lower_keys = true.
Proof. vm_compute. reflexivity. Qed.

Lemma lower_keys_ascii :
  forallb (fun c => (0x80 <=? c) || in_range 0x41 0x5A c) lower_keys = true.
Proof. vm_compute. reflexivity. Qed.

Lemma isspace_to_lower (c : char) : isspace (to_lower c) = isspace c.
Proof.
  destruct (lower_keys_forall _ c lower_keys_text) as [->|H]; [reflexivity|].
  apply andb_true_iff in H as [H1 H2]. apply negb_true_iff in H1, H2. congruence.
Qed.

Lemma to_lower_space (c : char) : isspace c = true -> to_lower c = c.
Proof.
  intros Hc. destruct (lower_keys_forall _ c lower_keys_text) as [E|H]; [exact E|].
  apply andb_true_iff in H as [H1 _]. apply negb_true_iff in H1. congruence.
Qed.

Lemma is_lowered_to_lower (c : char) :
  c <> 0x3A3 -> c <> 0x130 -> is_lowered (to_lower c) = true.
Proof.
  intros H1 H2. destruct (lower_keys_forall _ c lower_keys_lowered) as [E|H];
    [|exact H].
  rewrite E. unfold is_lowered. rewrite E, N.eqb_refl.
  by rewrite (proj2 (N.eqb_neq c 0x3A3) H1), (proj2 (N.eqb_neq c 0x130) H2).
Qed.

Lemma to_lower_idem (c : char) : to_lower (to_lower c) = to_lower c.
Proof.
  destruct (lower_keys_forall _ c lower_keys_lowered) as [E|H]; [by rewrite !E|].
  unfold is_lowered in H. apply andb_true_iff in H as [_ H]. by apply N.eqb_eq in H.
Qed.

(** On ASCII the mapping is the one of the letters A to Z. *)
Lemma to_lower_cases (c : char) :
  c < 0x80 ->
  (to_lower c = c + 32 /\ 0x41 <= c <= 0x5A)
  \/ (to_lower c = c /\ ~ (0x41 <= c <= 0x5A)).
Proof.
  intros Hc.
  destruct (N.le_gt_cases 0x41 c) as [H1|H1];
    [destruct (N.le_gt_cases c 0x5A) as [H2|H2]|].
  - left. split; [|lia].
    assert (exists rest, lower_runs = (0x41, 0x5A, 1, 0x61) :: rest) as [rest E]
      by (eexists; reflexivity).
    unfold to_lower. rewrite E. cbn [List.find in_run].
    rewrite (proj2 (N.leb_le 0x41 c) H1), (proj2 (N.leb_le c 0x5A) H2).
    rewrite N.mod_1_r. cbn [andb N.eqb]. lia.
  - right. split; [|lia].
    destruct (lower_keys_forall _ c lower_keys_ascii) as [E|H]; [exact E|].
    revert H. unfold in_range. split_cmp; discriminate.
  - right. split; [|lia].
    destruct (lower_keys_forall _ c lower_keys_ascii) as [E|H]; [exact E|].
    revert H. unfold in_range. split_cmp; discriminate.
Qed.

(** **** The lower case of a string *)

Lemma lower_ucs4_lowered (before after : str) (c : char) :
  forallb is_lowered (lower_ucs4 before after c) = true.
Proof.
  unfold lower_ucs4. destruct (N.eqb_spec c 0x3A3) as [->|H1].
  - unfold handle_capital_sigma. by destruct (_ && _).
  - unfold to_lower_full. destruct (N.eqb_spec c 0x130) as [->|H2];
      [reflexivity|].
    cbn [forallb]. by rewrite is_lowered_to_lower.
Qed.

Lemma do_lower_lowered (before s : str) :
  forallb is_lowered (do_lower before s) = true.
Proof.
  revert before. induction s as [|c s IH]; intros before; [reflexivity|].
  cbn [do_lower]. by rewrite forallb_app, lower_ucs4_lowered, IH.
Qed.

Lemma do_lower_fixed (before s : str) :
  forallb is_lowered s = true -> do_lower before s = s.
Proof.
  revert before. induction s as [|c s IH]; intros before; [reflexivity|].
  cbn [forallb do_lower]. intros H. apply andb_true_iff in H as [Hc Hs].
  rewrite (IH _ Hs). unfold is_lowered in Hc.
  apply andb_true_iff in Hc as [Hc H3]. apply andb_true_iff in Hc as [H1 H2].
  apply negb_true_iff in H1, H2. apply N.eqb_eq in H3.
  unfold lower_ucs4, to_lower_full. by rewrite H1, H2, H3.
Qed.

Lemma lower_idem (s : str) : lower (lower s) = lower s.
Proof. unfold lower. apply do_lower_fixed, do_lower_lowered. Qed.

(** Whitespace is kept as it is, and any other character becomes one or
    two characters that are not whitespace. *)
Lemma lower_ucs4_space (before after : str) (c : char) :
  isspace c = true -> lower_ucs4 before after c = [c].
Proof.
  intros Hc. unfold lower_ucs4, to_lower_full.
  destruct (N.eqb_spec c 0x3A3) as [->|_]; [discriminate Hc|].
  destruct (N.eqb_spec c 0x130) as [->|_]; [discriminate Hc|].
  by rewrite to_lower_space.
Qed.

Lemma lower_ucs4_text (before after : str) (c : char) :
  isspace c = false ->
  exists d l, lower_ucs4 before after c = d :: l
              /\ isspace d = false
              /\ Forall (fun x => isspace x = false) l.
Proof.
  intros Hc. unfold lower_ucs4, to_lower_full.
  destruct (N.eqb_spec c 0x3A3) as [->|_].
  - eexists _, []. split; [reflexivity|]. split; [|constructor].
    unfold handle_capital_sigma. by destruct (_ && _).
  - destruct (N.eqb_spec c 0x130) as [->|_].
    + eexists _, _. split; [reflexivity|]. split; [reflexivity|].
      by repeat constructor.
    + eexists _, []. split; [reflexivity|]. split; [|constructor].
      by rewrite isspace_to_lower.
Qed.

Lemma single_spaces_text (l rest : str) :
  Forall (fun x => isspace x = false) l ->
  single_spaces (l ++ rest) = single_spaces rest.
Proof.
  induction 1 as [|x l Hx Hl IH]; [reflexivity|].
  cbn [app single_spaces]. by rewrite Hx, IH.
Qed.

Lemma do_lower_head (b : bool) (before s : str) :
  match do_lower before s with d :: _ => negb (isspace d) | [] => b end
  = match s with c :: _ => negb (isspace c) | [] => b end.
Proof.
  destruct s as [|c s]; [reflexivity|]. cbn [do_lower].
  destruct (isspace c) eqn:Hc.
  - rewrite lower_ucs4_space by exact Hc. cbn [app]. by rewrite Hc.
  - destruct (lower_ucs4_text before s c Hc) as (d & l & -> & Hd & _).
    cbn [app]. by rewrite Hd.
Qed.

Lemma single_spaces_do_lower (before s : str) :
  single_spaces (do_lower before s) = single_spaces s.
Proof.
  revert before. induction s as [|c s IH]; intros before; [reflexivity|].
  cbn [do_lower single_spaces]. destruct (isspace c) eqn:Hc.
  - rewrite lower_ucs4_space by exact Hc. cbn [app single_spaces].
    by rewrite Hc, IH, (do_lower_head false).
  - destruct (lower_ucs4_text before s c Hc) as (d & l & -> & Hd & Hl).
    cbn [app single_spaces]. by rewrite Hd, single_spaces_text, IH.
Qed.

Lemma single_spaces_lower (s : str) : single_spaces (lower s) = single_spaces s.
Proof. apply single_spaces_do_lower. Qed.

Lemma ws_normalized_lower (s : str) : ws_normalized (lower s) = ws_normalized s.
Proof.
  unfold ws_normalized, lower.
  by rewrite single_spaces_do_lower, (do_lower_head true).
Qed.

(** On an ASCII string [lower] maps every character by itself. *)
Lemma lower_ascii (s : str) :
  Forall (fun c => c < 0x80) s -> lower s = map to_lower s.
Proof.
  intros Hs. unfold lower. generalize (@nil N).
  induction Hs as [|c s Hc Hs IH]; intros before; [reflexivity|].
  cbn [do_lower map]. rewrite IH. unfold lower_ucs4, to_lower_full.
  rewrite (proj2 (N.eqb_neq c 0x3A3)) by lia.
  by rewrite (proj2 (N.eqb_neq c 0x130)) by lia.
Qed.

(** ** Cleaning *)

(** *** The fields of a cleaned record *)

Ltac lit_neq :=
  let H := fresh in intros H; vm_compute in H; discriminate H.

Ltac cleaned_row_lookup :=
  unfold cleaned_row;
  repeat (rewrite lookup_insert_ne by lit_neq);
  rewrite lookup_insert_eq.

Lemma cleaned_row_type (r : row) :
  cleaned_row r !! lit "type"
  = Some (py_or (VStr (lower (field_text r (lit "type")))) VNone).
Proof. by cleaned_row_lookup. Qed.

Lemma cleaned_row_prix_brut (r : row) :
  cleaned_row r !! lit "prix_brut"
  = Some (py_or (VStr (field_text r (lit "prix"))) VNone).
Proof. by cleaned_row_lookup. Qed.

Lemma cleaned_row_prix (r : row) :
  cleaned_row r !! lit "prix"
  = Some (value_of_price (parsed_price (field_text r (lit "prix")))).
Proof. by cleaned_row_lookup. Qed.

Lemma cleaned_row_text (r : row) (k : str) :
  k ∈ [lit "adresse"; lit "image_lien"; lit "categorie"] ->
  cleaned_row r !! k = Some (py_or (VStr (field_text r k)) VNone).
Proof.
  intros Hk. repeat (apply elem_of_cons in Hk as [->|Hk]);
    [by cleaned_row_lookup .. | by apply elem_of_nil in Hk].
Qed.

Lemma cleaned_row_dom (r : row) :
  dom (cleaned_row r)
  = {[ lit "type"; lit "prix_brut"; lit "prix"; lit "adresse";
       lit "image_lien"; lit "categorie" ]}.
Proof. unfold cleaned_row. rewrite !dom_insert_L, dom_empty_L. set_solver. Qed.

Lemma normalized_text_field (s : str) :
  text_field_ok (py_or (VStr (normalize_whitespace s)) VNone).
Proof.
  unfold py_or. cbn [truthy].
  remember (normalize_whitespace s) as l eqn:E.
  destruct l as [|c t]; cbn [str_truthy text_field_ok]; [exact I|].
  split; [discriminate|]. rewrite E. apply normalize_whitespace_normalized.
Qed.

Lemma normalized_type_field (s : str) :
  type_field_ok (py_or (VStr (lower (normalize_whitespace s))) VNone).
Proof.
  unfold py_or. cbn [truthy].
  remember (lower (normalize_whitespace s)) as l eqn:E.
  destruct l as [|c t]; cbn [str_truthy type_field_ok]; [exact I|].
  split; [discriminate|]. rewrite E. split.
  - rewrite ws_normalized_lower. apply normalize_whitespace_normalized.
  - apply lower_idem.
Qed.

Lemma parsed_price_nonneg (s : str) :
  price_field_ok (value_of_price (parsed_price s)).
Proof.
  unfold parsed_price.
  repeat match goal with |- context [if ?b then _ else _] => destruct b end;
    cbn; auto using digits_value_nonneg.
Qed.

Lemma cleaned_row_ok (r : row) : cleaned_ok (cleaned_row r).
Proof.
  split; [apply cleaned_row_dom|].
  split; [eexists; split; [apply cleaned_row_type | apply normalized_type_field]|].
  split; [eexists; split; [apply cleaned_row_prix_brut | apply normalized_text_field]|].
  split; [eexists; split; [apply cleaned_row_prix | apply parsed_price_nonneg]|].
  repeat split;
    (eexists; split;
     [apply cleaned_row_text; set_solver | apply normalized_text_field]).
Qed.

(** *** [clean_records], record by record *)

Lemma py_str_text (v : value) :
  py_str v = if writable v then Some (str_text v) else None.
Proof. by destruct v. Qed.

(** The body of the loop raises exactly on the records that are not
    cleanable, and returns the cleaned record on the others. *)
Lemma clean_row_cleaned (r : row) :
  clean_row r = if cleanable r then Some (cleaned_row r) else None.
Proof.
  unfold clean_row, cleanable. cbn [forallb]. rewrite !py_str_text.
  destruct (writable (dict_get r (lit "prix") _)); [|reflexivity].
  cbn [mbind option_bind andb].
  destruct (writable (dict_get r (lit "categorie") _)); [|reflexivity].
  cbn [mbind option_bind andb].
  destruct (writable (dict_get r (lit "type") _)); [|reflexivity].
  cbn [mbind option_bind andb]. rewrite clean_price_parsed.
  destruct (price_readable _);
    [|by destruct (writable _), (writable _)].
  cbn [mbind option_bind].
  destruct (writable (dict_get r (lit "adresse") _)); [|reflexivity].
  cbn [mbind option_bind andb].
  destruct (writable (dict_get r (lit "image_lien") _)); reflexivity.
Qed.

Lemma clean_loop_cleaned (records cleaned : list row) :
  clean_loop records cleaned
  = if forallb cleanable records
    then Some (cleaned ++ (cleaned_row <$> records))
    else None.
Proof.
  revert cleaned. induction records as [|r records IH]; intros cleaned;
    cbn [clean_loop forallb fmap list_fmap].
  - by rewrite app_nil_r.
  - rewrite clean_row_cleaned. destruct (cleanable r); [|reflexivity].
    cbn [mbind option_bind andb]. rewrite IH.
    by rewrite <- app_assoc.
Qed.

Lemma clean_records_cleaned (records : list row) :
  clean_records records
  = if forallb cleanable records then Some (cleaned_row <$> records) else None.
Proof. unfold clean_records. by rewrite clean_loop_cleaned. Qed.

Lemma clean_records_Some (records cleaned : list row) :
  clean_records records = Some cleaned ->
  forallb cleanable records = true /\ cleaned = cleaned_row <$> records.
Proof.
  rewrite clean_records_cleaned.
  destruct (forallb cleanable records); [|discriminate]. by intros [= <-].
Qed.

(** C7, amended: on a sequence of records that can all be cleaned (the
    fields read can be written as text and the price text can be read),
    [clean_records] returns as many records as it receives, the i-th one
    being the cleaning of the i-th input record; on any other sequence it
    raises [ValueError] and returns nothing. *)
Theorem clean_records_pointwise (records : list row) :
  if forallb cleanable records
  then exists cleaned : list row,
         clean_records records = Some cleaned
         /\ length cleaned = length records
         /\ forall i : nat, cleaned !! i = records !! i ≫= clean_row
  else clean_records records = None.
Proof.
  rewrite clean_records_cleaned.
  destruct (forallb cleanable records) eqn:Hall; [|reflexivity].
  exists (cleaned_row <$> records). split; [reflexivity|].
  split; [apply length_fmap|].
  intros i. rewrite list_lookup_fmap.
  destruct (records !! i) as [r|] eqn:Hr; [|reflexivity].
  cbn [fmap option_fmap option_map mbind option_bind].
  rewrite clean_row_cleaned. rewrite forallb_forall in Hall.
  apply list_elem_of_lookup_2, list_elem_of_In in Hr. by rewrite (Hall r Hr).
Qed.

(** C7, as stated, fails: for a record whose price text has 4301 digits
    [clean_records] raises instead of returning one record. *)
Lemma long_price_not_cleaned : ~ returns_same_length [row_long_price].
Proof.
  intros (cleaned & E & _).
  assert (clean_records [row_long_price] = None) as E'
    by (vm_compute; reflexivity).
  congruence.
Qed.

(** C5: every record produced by [clean_records] has exactly the six
    fields; [type] is absent or a non-empty, whitespace-normalized,
    lower-case string; [prix] is absent or a non-negative integer; every
    other field is absent or a non-empty whitespace-normalized string.  No
    field is the empty string. *)
Theorem clean_records_fields (records cleaned : list row) :
  clean_records records = Some cleaned -> Forall cleaned_ok cleaned.
Proof.
  intros E. apply clean_records_Some in E as [_ ->].
  apply Forall_fmap, Forall_forall. intros r _. apply cleaned_row_ok.
Qed.

Lemma clean_records_fields_witness : Forall cleaned_ok [cleaned_card].
Proof.
  apply (clean_records_fields [tagged_card] [cleaned_card]).
  vm_compute. reflexivity.
Defined.

Lemma parsed_price_some_nonempty (s : str) (n : Z) :
  parsed_price s = Some n -> s <> [].
Proof. intros H ->. discriminate H. Qed.

Lemma cleanable_price (r : row) :
  cleanable r = true -> price_readable (field_text r (lit "prix")) = true.
Proof.
  unfold cleanable. rewrite py_str_text. cbn [forallb].
  intros H. apply andb_true_iff in H as [Hw H].
  apply andb_true_iff in Hw as [Hw _]. by rewrite Hw in H.
Qed.

Lemma cleaned_row_price_has_raw (r : row) :
  cleanable r = true -> price_has_raw (cleaned_row r).
Proof.
  intros Hr. apply cleanable_price in Hr.
  unfold price_has_raw, dedup_key, key_price, dict_get_none, dict_get.
  cbn [fst snd]. rewrite cleaned_row_prix, cleaned_row_prix_brut. cbn [default].
  unfold id. set (raw := field_text r (lit "prix")) in *.
  destruct (parsed_price raw) as [n|] eqn:E; cbn [value_of_price]; [|exact I].
  pose proof (parsed_price_some_nonempty _ _ E) as Hne.
  exists raw. rewrite clean_price_parsed, Hr, E.
  destruct raw as [|c t]; [done|]. by cbn.
Qed.

(** C10: in every record produced by [clean_records], a present [prix] comes
    with a present, non-empty [prix_brut] from which it was parsed, and the
    price component of the record's deduplication key is that [prix_brut]
    string. *)
Theorem clean_records_price_has_raw (records cleaned : list row) :
  clean_records records = Some cleaned -> Forall price_has_raw cleaned.
Proof.
  intros E. apply clean_records_Some in E as [Hall ->].
  apply Forall_fmap, Forall_forall. intros r Hr. cbn.
  apply cleaned_row_price_has_raw.
  rewrite forallb_forall in Hall. by apply Hall, list_elem_of_In.
Qed.

Lemma clean_records_price_has_raw_witness : Forall price_has_raw [cleaned_card].
Proof.
  apply (clean_records_price_has_raw [tagged_card] [cleaned_card]).
  vm_compute. reflexivity.
Defined.

(** A missing field is cleaned as the empty string is. *)
Lemma clean_row_missing (r : row) (k : str) :
  r !! k = None -> clean_row (<[k := VStr (lit "")]> r) = clean_row r.
Proof.
  intros Hk.
  assert (forall k', dict_get (<[k := VStr (lit "")]> r) k' (VStr (lit ""))
                     = dict_get r k' (VStr (lit ""))) as E.
  { intros k'. unfold dict_get. destruct (decide (k = k')) as [<-|Hne].
    - by rewrite lookup_insert_eq, Hk.
    - by rewrite lookup_insert_ne. }
  unfold clean_row. by rewrite !E.
Qed.

(** C3: a field carrying [None] is not cleaned as the empty string is: the
    record with [prix = None] gets the raw price text "None", the record with
    [prix = ""] gets an absent raw price. *)
Theorem clean_records_none_price :
  (fun cleaned : list row => (fun r : row => r !! lit "prix_brut") <$> cleaned)
    <$> clean_records [row_price_none]
  = Some [Some (VStr (lit "None"))]
  /\ (fun cleaned : list row => (fun r : row => r !! lit "prix_brut") <$> cleaned)
       <$> clean_records [row_price_empty]
     = Some [Some VNone].
Proof. split; vm_compute; reflexivity. Qed.

(** ** Deduplication *)

(** Membership goals about keys: the keys are first made opaque. *)
Ltac keys_solver :=
  repeat match goal with
    | H : context [dedup_key ?r] |- _ => generalize dependent (dedup_key r); intros
    | |- context [dedup_key ?r] => generalize dependent (dedup_key r); intros
    end;
  set_solver.

Lemma dedupe_fold (records : list row) (seen : gset dedup_key_t) (unique : list row) :
  fold_left dedupe_step records (seen, unique)
  = (seen ∪ list_to_set (dedup_key <$> records),
     unique ++ dedupe_from seen records).
Proof.
  revert seen unique.
  induction records as [|r records IH]; intros seen unique; cbn [fold_left].
  - cbn. f_equal; [set_solver | by rewrite app_nil_r].
  - unfold dedupe_step at 2. cbn [fst snd dedupe_from fmap list_fmap list_to_set].
    destruct (decide (dedup_key r ∈ seen)) as [Hin|Hout]; rewrite IH.
    + f_equal. set_solver.
    + f_equal; [set_solver | by rewrite <- app_assoc].
Qed.

Lemma dedupe_records_from (records : list row) :
  dedupe_records records = dedupe_from ∅ records.
Proof. unfold dedupe_records. by rewrite dedupe_fold. Qed.

Lemma dedupe_from_snoc (seen : gset dedup_key_t) (records : list row) (r : row) :
  dedupe_from seen (records ++ [r])
  = dedupe_from seen records
    ++ (if decide (dedup_key r ∈ seen ∪ list_to_set (dedup_key <$> records))
        then [] else [r]).
Proof.
  revert seen. induction records as [|q records IH]; intros seen;
    cbn [dedupe_from app fmap list_fmap list_to_set].
  - apply decide_ext. keys_solver.
  - case_decide; rewrite IH; rewrite ?app_comm_cons; f_equal; clear IH;
      apply decide_ext; keys_solver.
Qed.

Lemma dedupe_from_sublist (seen : gset dedup_key_t) (records : list row) :
  sublist (dedupe_from seen records) records.
Proof.
  revert seen. induction records as [|r records IH]; intros seen; cbn.
  - constructor.
  - case_decide; [apply sublist_cons | apply sublist_skip]; apply IH.
Qed.

Lemma dedupe_from_keys (seen : gset dedup_key_t) (records : list row) (k : dedup_key_t) :
  k ∈ dedup_key <$> dedupe_from seen records
  <-> k ∈ dedup_key <$> records /\ k ∉ seen.
Proof.
  revert seen. induction records as [|r records IH]; intros seen; cbn.
  - set_solver.
  - case_decide; cbn; rewrite ?elem_of_cons, IH; [set_solver|].
    destruct (decide (k = dedup_key r)); set_solver.
Qed.

Lemma dedupe_from_NoDup (seen : gset dedup_key_t) (records : list row) :
  NoDup (dedup_key <$> dedupe_from seen records).
Proof.
  revert seen. induction records as [|r records IH]; intros seen; cbn.
  - constructor.
  - case_decide; [apply IH|]. cbn. constructor; [|apply IH].
    rewrite dedupe_from_keys. set_solver.
Qed.

Lemma dedupe_from_idem (seen : gset dedup_key_t) (records : list row) :
  dedupe_from seen (dedupe_from seen records) = dedupe_from seen records.
Proof.
  revert seen. induction records as [|r records IH]; intros seen; cbn.
  - reflexivity.
  - case_decide as Hk; [apply IH|]. cbn. rewrite decide_False by exact Hk.
    by rewrite IH.
Qed.

Lemma dedup_key_image (r1 r2 : row) :
  dict_get_none r1 (lit "image_lien") <> dict_get_none r2 (lit "image_lien") ->
  dedup_key r1 <> dedup_key r2.
Proof. unfold dedup_key. intros Hne [= _ _ _ E _]. by apply Hne. Qed.

(** In a cleaned record the price component of the key is the raw price
    when it is present and the parsed price otherwise. *)
Lemma dedup_key_price_cleaned (r : row) :
  cleaned_ok r ->
  key_price (dedup_key r)
  = match dict_get_none r (lit "prix_brut") with
    | VNone => dict_get_none r (lit "prix")
    | raw => raw
    end.
Proof.
  intros (_ & _ & (v & Hv & Hok) & _). unfold key_price, dedup_key. cbn [fst snd].
  unfold dict_get_none at 1 3 4, dict_get. rewrite Hv. cbn [default].
  destruct v as [|s|n]; [reflexivity| |contradiction].
  destruct Hok as [Hs _]. by destruct s.
Qed.

(** C2: the key of a record is the five-tuple (type, prix_brut or else
    prix, adresse, image_lien, categorie); [dedupe_records] reads the
    records from left to right and keeps a record exactly when the key of no
    earlier record equals its key; the kept records are a subsequence of the
    input, in its order, with one record (the first) for every key of the
    input; two records with different [image_lien] are both kept. *)
Theorem dedupe_records_first_wins :
  (forall r : row,
     dedup_key r
     = ( dict_get_none r (lit "type"),
         (if truthy (dict_get_none r (lit "prix_brut"))
          then dict_get_none r (lit "prix_brut")
          else dict_get_none r (lit "prix")),
         dict_get_none r (lit "adresse"),
         dict_get_none r (lit "image_lien"),
         dict_get_none r (lit "categorie") ))
  /\ dedupe_records [] = []
  /\ (forall (records : list row) (r : row),
        dedupe_records (records ++ [r])
        = dedupe_records records
          ++ (if decide (dedup_key r ∈ dedup_key <$> records) then [] else [r]))
  /\ (forall records : list row, sublist (dedupe_records records) records)
  /\ (forall records : list row, NoDup (dedup_key <$> dedupe_records records))
  /\ (forall (records : list row) (k : dedup_key_t),
        k ∈ dedup_key <$> dedupe_records records <-> k ∈ dedup_key <$> records)
  /\ (forall r1 r2 : row,
        dict_get_none r1 (lit "image_lien") <> dict_get_none r2 (lit "image_lien") ->
        dedupe_records [r1; r2] = [r1; r2]).
Proof.
  split; [reflexivity|].
  split; [reflexivity|]. split; [|split; [|split; [|split]]].
  - intros records r. rewrite !dedupe_records_from, dedupe_from_snoc.
    f_equal. apply decide_ext. keys_solver.
  - intros records. rewrite dedupe_records_from. apply dedupe_from_sublist.
  - intros records. rewrite dedupe_records_from. apply dedupe_from_NoDup.
  - intros records k. rewrite dedupe_records_from, dedupe_from_keys. set_solver.
  - intros r1 r2 Hne. apply dedup_key_image in Hne.
    rewrite dedupe_records_from. cbn.
    rewrite decide_False by set_solver. rewrite decide_False by set_solver.
    reflexivity.
Qed.

Lemma dedupe_records_first_wins_witness :
  dedupe_records [listing_a; listing_b] = [listing_a; listing_b].
Proof.
  apply (proj2 (proj2 (proj2 (proj2 (proj2 (proj2 dedupe_records_first_wins)))))
           listing_a listing_b).
  vm_compute. discriminate.
Defined.

(** C6: [dedupe_records] is idempotent. *)
Theorem dedupe_records_idempotent (records : list row) :
  dedupe_records (dedupe_records records) = dedupe_records records.
Proof. rewrite !dedupe_records_from. apply dedupe_from_idem. Qed.

(** ** Scraping a category *)

Section ScraperFacts.
Context `{HostChecks} `{HtmlParser}.
Variable duration : Type.
Variable network : list (event duration) -> str -> outcome.

Local Abbreviation fetch := (fetch_html duration network).
Local Abbreviation get_event url := (EvGet duration url DEFAULT_HEADERS 20).

(** A fetch adds exactly one request to the trace, whether it raises or not. *)
Lemma fetch_html_trace (url : str) (tr : list (event duration)) :
  (fetch url tr).2 = tr ++ [get_event url].
Proof.
  unfold fetch_html, requests_get, raise_for_status, mbind, mret,
    io_mbind, io_mret, io_bind, io_ret, io_raise.
  destruct (network tr url) as [e|r]; [reflexivity|].
  destruct (_ && _)%bool; reflexivity.
Qed.

Lemma after_pages_succ (url : Z -> str) (d : duration)
    (tr : list (event duration)) (n : Z) :
  (0 <= n)%Z ->
  after_pages url d tr (n + 1)
  = after_pages url d tr n ++ [get_event (url (n + 1)%Z); EvSleep duration d].
Proof.
  intros Hn. unfold after_pages.
  rewrite seqZ_app by lia. rewrite flat_map_app, app_assoc.
  f_equal. rewrite seqZ_cons by lia. cbn. by rewrite Z.add_comm.
Qed.

Lemma scrape_pages_raises (base_url item_type : str) (pages : Z) (d : duration)
    (tr0 : list (event duration)) (url : Z -> str) (e : exn) (k : Z) :
  (1 <= k <= pages)%Z ->
  (forall j, (1 <= j <= k)%Z -> build_page_url base_url j = Some (url j)) ->
  (forall j, (1 <= j < k)%Z ->
     exists html, (fetch (url j) (after_pages url d tr0 (j - 1))).1 = inr html) ->
  (fetch (url k) (after_pages url d tr0 (k - 1))).1 = inl e ->
  forall (m : nat) (j : Z) (results : list row),
    (1 <= j)%Z -> (j + Z.of_nat m = k)%Z ->
    scrape_pages duration network base_url item_type pages d
      (seqZ j (pages - j + 1)) results (after_pages url d tr0 (j - 1))
    = (inl e, after_pages url d tr0 (k - 1) ++ [get_event (url k)]).
Proof.
  intros Hk Hurl Hok Hfail.
  induction m as [|m IH]; intros j results Hj Hm.
  - assert (j = k) as -> by lia.
    rewrite seqZ_cons by lia. cbn [scrape_pages].
    rewrite Hurl by lia.
    unfold mbind, mret, io_mbind, io_mret, io_bind, io_ret.
    pose proof (fetch_html_trace (url k) (after_pages url d tr0 (k - 1))) as Ht.
    destruct (fetch (url k) (after_pages url d tr0 (k - 1))) as [[e'|html] tr'].
    + cbn in Hfail, Ht. congruence.
    + cbn in Hfail. discriminate.
  - rewrite seqZ_cons by lia. cbn [scrape_pages].
    rewrite Hurl by lia.
    unfold mbind, mret, io_mbind, io_mret, io_bind, io_ret.
    pose proof (fetch_html_trace (url j) (after_pages url d tr0 (j - 1))) as Ht.
    destruct (Hok j ltac:(lia)) as [html Hhtml].
    destruct (fetch (url j) (after_pages url d tr0 (j - 1))) as [[e'|html'] tr'];
      cbn in Hhtml, Ht; [discriminate|].
    rewrite (proj2 (Z.ltb_lt j pages)) by lia.
    unfold sleep. subst tr'.
    replace (Z.pred (pages - j + 1)) with (pages - Z.succ j + 1)%Z by lia.
    specialize (IH (Z.succ j) (results ++ parse_listings html' item_type)
                  ltac:(lia) ltac:(lia)).
    replace (Z.succ j - 1)%Z with (j - 1 + 1)%Z in IH by lia.
    rewrite after_pages_succ in IH by lia.
    replace (j - 1 + 1)%Z with j in IH by lia.
    rewrite <- app_assoc. exact IH.
Qed.

Lemma scrape_pages_returns (base_url item_type : str) (pages : Z) (d : duration)
    (tr0 : list (event duration)) (url html : Z -> str) :
  (forall j, (1 <= j <= pages)%Z -> build_page_url base_url j = Some (url j)) ->
  (forall j, (1 <= j <= pages)%Z ->
     (fetch (url j) (after_pages url d tr0 (j - 1))).1 = inr (html j)) ->
  forall (m : nat) (j : Z) (results : list row),
    (1 <= j)%Z -> (j + Z.of_nat m = pages)%Z ->
    scrape_pages duration network base_url item_type pages d
      (seqZ j (pages - j + 1)) results (after_pages url d tr0 (j - 1))
    = (inr (results
            ++ flat_map (fun i => parse_listings (html i) item_type)
                 (seqZ j (pages - j + 1))),
       after_pages url d tr0 (pages - 1) ++ [get_event (url pages)]).
Proof.
  intros Hurl Hok. induction m as [|m IH]; intros j results Hj Hm;
    rewrite seqZ_cons by lia; cbn [scrape_pages flat_map];
    rewrite Hurl by lia;
    unfold mbind, mret, io_mbind, io_mret, io_bind, io_ret;
    pose proof (fetch_html_trace (url j) (after_pages url d tr0 (j - 1))) as Ht;
    pose proof (Hok j ltac:(lia)) as Hhtml;
    destruct (fetch (url j) (after_pages url d tr0 (j - 1))) as [[e'|html'] tr'];
    cbn in Hhtml, Ht; try discriminate; injection Hhtml as ->; subst tr'.
  - assert (j = pages) as -> by lia. rewrite Z.ltb_irrefl.
    replace (Z.pred (pages - pages + 1)) with 0%Z by lia.
    cbn [seqZ scrape_pages]. unfold mret, io_mret, io_ret.
    change (seqZ (Z.succ pages) 0) with (@nil Z). cbn [scrape_pages flat_map].
    by rewrite app_nil_r.
  - rewrite (proj2 (Z.ltb_lt j pages)) by lia. unfold sleep.
    replace (Z.pred (pages - j + 1)) with (pages - Z.succ j + 1)%Z by lia.
    specialize (IH (Z.succ j) (results ++ parse_listings (html j) item_type)
                  ltac:(lia) ltac:(lia)).
    replace (Z.succ j - 1)%Z with (j - 1 + 1)%Z in IH by lia.
    rewrite after_pages_succ in IH by lia.
    replace (j - 1 + 1)%Z with j in IH by lia.
    rewrite <- !app_assoc in *. exact IH.
Qed.

(** When every page is fetched, [scrape_category] returns the records of the
    pages in page order, after one request per page and a pause between
    two requests. *)
Lemma scrape_category_returns (base_url item_type : str) (pages : Z)
    (d : duration) (tr0 : list (event duration)) (url html : Z -> str) :
  let n := Z.max 1 pages in
  (forall j, (1 <= j <= n)%Z -> build_page_url base_url j = Some (url j)) ->
  (forall j, (1 <= j <= n)%Z ->
     (fetch (url j) (after_pages url d tr0 (j - 1))).1 = inr (html j)) ->
  scrape_category duration network base_url item_type pages d tr0
  = (inr (flat_map (fun i => parse_listings (html i) item_type) (seqZ 1 n)),
     after_pages url d tr0 (n - 1) ++ [get_event (url n)]).
Proof.
  intros n Hurl Hok. unfold scrape_category. fold n.
  pose proof (scrape_pages_returns base_url item_type n d tr0 url html
                Hurl Hok (Z.to_nat (n - 1)) 1 [] ltac:(lia) ltac:(lia)) as E.
  replace (n - 1 + 1)%Z with n in E by lia.
  replace (after_pages url d tr0 (1 - 1)) with tr0 in E; [exact E|].
  unfold after_pages. cbn. by rewrite app_nil_r.
Qed.

(** C8: when the fetch of page [k] raises after the pages before it were
    fetched, [scrape_category] raises the same exception instead of
    returning records; the requests made are those of the pages [1..k], one
    each, so that no page is fetched again and no page after [k] is fetched. *)
Theorem scrape_category_propagates (base_url item_type : str) (pages : Z)
    (d : duration) (tr0 : list (event duration)) (url : Z -> str) (e : exn)
    (k : Z) :
  (1 <= k <= Z.max 1 pages)%Z ->
  (forall j, (1 <= j <= k)%Z -> build_page_url base_url j = Some (url j)) ->
  (forall j, (1 <= j < k)%Z ->
     exists html, (fetch (url j) (after_pages url d tr0 (j - 1))).1 = inr html) ->
  (fetch (url k) (after_pages url d tr0 (k - 1))).1 = inl e ->
  scrape_category duration network base_url item_type pages d tr0
  = (inl e, after_pages url d tr0 (k - 1) ++ [get_event (url k)]).
Proof.
  intros Hk Hurl Hok Hfail. unfold scrape_category.
  pose proof (scrape_pages_raises base_url item_type (Z.max 1 pages) d tr0 url e k
                Hk Hurl Hok Hfail (Z.to_nat (k - 1)) 1 [] ltac:(lia) ltac:(lia))
    as E.
  replace (Z.max 1 pages - 1 + 1)%Z with (Z.max 1 pages) in E by lia.
  replace (after_pages url d tr0 (1 - 1)) with tr0 in E; [exact E|].
  unfold after_pages. cbn. by rewrite app_nil_r.
Qed.

End ScraperFacts.

Lemma scrape_category_propagates_witness :
  @scrape_category plain_hosts no_cards N second_page_missing
    category_url (lit "habits") 3 600 []
  = (inl (HTTPError 404),
     [EvGet N category_url DEFAULT_HEADERS 20; EvSleep N 600;
      EvGet N (category_url ++ lit "?page=2") DEFAULT_HEADERS 20]).
Proof.
  apply (@scrape_category_propagates plain_hosts no_cards N second_page_missing
           category_url (lit "habits") 3 600 []
           (fun j => if (j =? 1)%Z then category_url
                     else category_url ++ lit "?page=" ++ str_of_int j)
           (HTTPError 404) 2).
  - lia.
  - intros j Hj. assert (j = 1 \/ j = 2)%Z as [-> | ->] by lia;
      vm_compute; reflexivity.
  - intros j Hj. assert (j = 1)%Z as -> by lia.
    eexists. vm_compute. reflexivity.
  - vm_compute. reflexivity.
Defined.

(** ** Page URLs *)

(** C9: for a page number of at most 1, [build_page_url] returns the base
    URL as it is, whatever its query string. *)
Theorem build_page_url_first_page `{HostChecks} (base_url : str) (page : Z) :
  (page <= 1)%Z -> build_page_url base_url page = Some base_url.
Proof.
  intros Hp. unfold build_page_url.
  by rewrite (proj2 (Z.leb_le page 1) Hp).
Qed.

Lemma build_page_url_first_page_witness :
  @build_page_url plain_hosts (category_url ++ lit "?page=7&tri=prix") 1
  = Some (category_url ++ lit "?page=7&tri=prix").
Proof.
  apply (@build_page_url_first_page plain_hosts
           (category_url ++ lit "?page=7&tri=prix") 1).
  lia.
Defined.


Example build_page_url_blank_and_escapes :
  forall H : HostChecks,
    @build_page_url H (lit "https://h/p;x?a=&b=1&page=7&c=x%20y+z#frag") 12
    = Some (lit "https://h/p;x?b=1&page=12&c=x+y+z#frag").
Proof. intros H. vm_compute. reflexivity. Qed.

Example build_page_url_no_query :
  forall H : HostChecks,
    @build_page_url H category_url 2 = Some (category_url ++ lit "?page=2").
Proof. intros H. vm_compute. reflexivity. Qed.


(** *** The ordered dictionary of the query *)






Lemma str_of_uint_digits (d : Decimal.uint) :
  Forall (fun c => is_ascii_digit c = true) (str_of_uint d).
Proof. induction d; cbn; constructor; auto. Qed.






(** *** UTF-8 and percent-encoding round trips *)
























(** *** Splitting and joining *)












(** *** Reading back an encoded query *)



Lemma str_truthy_nonempty (s : str) : s <> [] -> str_truthy s = true.
Proof. by destruct s. Qed.


(** *** Finding the scheme *)








(** *** What the pieces of a split look like *)





















(** *** Path and parameters *)












(** *** Reading a built URL again *)





Lemma filter_all {A} (P : A -> Prop) `{forall x, Decision (P x)} (l : list A) :
  Forall P l -> filter P l = l.
Proof.
  induction 1 as [|x l Hx Hl IH]; [reflexivity|].
  rewrite filter_cons, decide_True by exact Hx. by rewrite IH.
Qed.







(** *** The strings read from a query *)


















(** *** The query of a later page *)






Lemma str_of_uint_nonempty (d : Decimal.uint) :
  d <> Decimal.Nil -> str_of_uint d <> [].
Proof. by destruct d. Qed.

Lemma str_of_int_nonempty (n : Z) : str_of_int n <> [].
Proof.
  destruct n as [|q|q]; cbn [str_of_int]; [discriminate| |discriminate].
  apply str_of_uint_nonempty. cbn. apply Unsigned.to_uint_nonnil.
Qed.








(** ** Further properties of the cleaning functions *)

(** *** Fixed points of [normalize_whitespace] *)

Lemma re_sub_runs_restart (b : bool) (s : str) :
  match s with c :: _ => isspace c = false | [] => True end ->
  re_sub_runs isspace (lit " ") b s = re_sub_runs isspace (lit " ") false s.
Proof. destruct s as [|c s]; [reflexivity|]. cbn. by intros ->. Qed.

Lemma re_sub_runs_single_spaces (s : str) :
  single_spaces s = true -> re_sub_runs isspace (lit " ") false s = s.
Proof.
  induction s as [|c s IH]; [reflexivity|]. cbn [single_spaces].
  intros H. apply andb_true_iff in H as [Hc Hs]. cbn [re_sub_runs].
  destruct (isspace c) eqn:Ec.
  - apply andb_true_iff in Hc as [Hc Hd]. apply N.eqb_eq in Hc as ->.
    destruct s as [|d s]; [discriminate|]. apply negb_true_iff in Hd.
    rewrite re_sub_runs_restart by exact Hd. by rewrite IH.
  - by rewrite IH.
Qed.

Lemma single_spaces_last (s : str) :
  single_spaces s = true ->
  match last s with Some c => isspace c = false | None => True end.
Proof.
  induction s as [|c s IH]; [done|]. cbn [single_spaces].
  intros H. apply andb_true_iff in H as [Hc Hs].
  destruct s as [|d s].
  - cbn. destruct (isspace c); [|reflexivity].
    by rewrite andb_false_r in Hc.
  - rewrite last_cons_cons. by apply IH.
Qed.

Lemma drop_while_id {A} (p : A -> bool) (l : list A) :
  match l with x :: _ => p x = false | [] => True end -> drop_while p l = l.
Proof. destruct l as [|x l]; [reflexivity|]. cbn. by intros ->. Qed.

Lemma strip_id (s : str) :
  match s with c :: _ => isspace c = false | [] => True end ->
  match last s with Some c => isspace c = false | None => True end ->
  strip s = s.
Proof.
  intros Hh Hl. unfold strip, lstrip, rstrip. rewrite (drop_while_id _ s Hh).
  destruct (last s) as [c|] eqn:E.
  - apply last_Some in E as [s' ->]. rewrite rev_app_distr. cbn [rev app drop_while].
    rewrite Hl. cbn [rev]. by rewrite rev_involutive.
  - apply last_None in E as ->. reflexivity.
Qed.

(** A whitespace-normalized string is left as it is. *)
Lemma normalize_whitespace_fixed (s : str) :
  ws_normalized s = true -> normalize_whitespace s = s.
Proof.
  unfold ws_normalized. intros H. apply andb_true_iff in H as [Hh Hs].
  unfold normalize_whitespace. change (lit "") with (@nil N).
  assert ((if str_truthy s then s else []) = s) as -> by by destruct s.
  rewrite (re_sub_runs_single_spaces s Hs). apply strip_id.
  - destruct s; [exact I|]. by apply negb_true_iff.
  - by apply single_spaces_last.
Qed.

(** X1: [normalize_whitespace] is idempotent. *)
Theorem normalize_whitespace_idempotent (value : str) :
  normalize_whitespace (normalize_whitespace value) = normalize_whitespace value.
Proof. apply normalize_whitespace_fixed, normalize_whitespace_normalized. Qed.

(** X2: the strings [normalize_whitespace] leaves unchanged are exactly the
    whitespace-normalized ones: those that neither start nor end with
    whitespace and whose only whitespace is single spaces between other
    characters. *)
Theorem normalize_whitespace_fixed_points (value : str) :
  normalize_whitespace value = value <-> ws_normalized value = true.
Proof.
  split.
  - intros <-. apply normalize_whitespace_normalized.
  - apply normalize_whitespace_fixed.
Qed.

(** *** The characters [normalize_whitespace] keeps *)

Lemma filter_all_space (w : str) :
  forallb isspace w = true -> filter (fun c => isspace c = false) w = [].
Proof.
  induction w as [|c w IH]; [reflexivity|]. cbn [forallb].
  intros H. apply andb_true_iff in H as [Hc Hw].
  rewrite filter_cons_False by by rewrite Hc. by apply IH.
Qed.

Lemma filter_re_sub_runs (b : bool) (s : str) :
  filter (fun c => isspace c = false) (re_sub_runs isspace (lit " ") b s)
  = filter (fun c => isspace c = false) s.
Proof.
  revert b. induction s as [|c s IH]; intros b; [reflexivity|].
  cbn [re_sub_runs]. destruct (isspace c) eqn:Ec.
  - rewrite filter_app, IH, (filter_cons_False _ c) by by rewrite Ec.
    destruct b; [reflexivity|]. change (lit " ") with [0x20].
    rewrite filter_cons_False by done. reflexivity.
  - rewrite !filter_cons_True by done. by rewrite IH.
Qed.

Lemma filter_strip (s : str) :
  filter (fun c => isspace c = false) (strip s)
  = filter (fun c => isspace c = false) s.
Proof.
  unfold strip.
  destruct (drop_while_decomp isspace s) as (w & E & Hw & _).
  destruct (rstrip_decomp (lstrip s)) as (w' & E' & Hw' & _).
  rewrite E at 2. fold (lstrip s). rewrite E' at 2.
  rewrite !filter_app, (filter_all_space w Hw), (filter_all_space w' Hw').
  by rewrite app_nil_r.
Qed.

(** X3: [normalize_whitespace] removes or replaces whitespace only: the
    characters that are not whitespace are those of the input, in its order. *)
Theorem normalize_whitespace_keeps_text (value : str) :
  filter (fun c => isspace c = false) (normalize_whitespace value)
  = filter (fun c => isspace c = false) value.
Proof.
  unfold normalize_whitespace. change (lit "") with (@nil N).
  assert ((if str_truthy value then value else []) = value) as ->
    by by destruct value.
  by rewrite filter_strip, filter_re_sub_runs.
Qed.

(** X4: [normalize_whitespace] returns the empty string exactly for the
    strings that hold nothing but whitespace (the empty string among them). *)
Theorem normalize_whitespace_empty (value : str) :
  normalize_whitespace value = [] <-> forallb isspace value = true.
Proof.
  pose proof (normalize_whitespace_normalized value) as Hn.
  assert (filter (fun c => isspace c = false) (normalize_whitespace value)
          = filter (fun c => isspace c = false) value) as Hf.
  { unfold normalize_whitespace. change (lit "") with (@nil N).
    assert ((if str_truthy value then value else []) = value) as ->
      by by destruct value.
    by rewrite filter_strip, filter_re_sub_runs. }
  split.
  - intros E. rewrite E in Hf. apply forallb_forall. intros c Hc.
    destruct (isspace c) eqn:Ec; [reflexivity|].
    assert (c ∈ filter (fun c => isspace c = false) value) as Hin
      by (apply list_elem_of_filter; split; [exact Ec | by apply list_elem_of_In]).
    rewrite <- Hf in Hin. by apply elem_of_nil in Hin.
  - intros Hw. rewrite (filter_all_space value Hw) in Hf.
    destruct (normalize_whitespace value) as [|c t]; [reflexivity|].
    unfold ws_normalized in Hn. apply andb_true_iff in Hn as [Hc _].
    apply negb_true_iff in Hc. by rewrite filter_cons_True in Hf.
Qed.

(** *** Prices written in decimal *)

Lemma ascii_digit_range (c : char) : is_ascii_digit c = true <-> 0x30 <= c <= 0x39.
Proof. unfold is_ascii_digit, in_range. rewrite andb_true_iff, !N.leb_le. lia. Qed.

Lemma to_decimal_ascii (c : char) :
  is_ascii_digit c = true -> to_decimal c = Some (c - 0x30).
Proof.
  intros Hc. unfold to_decimal, decimal_zeros. cbn [List.find].
  change (0x30 + 9) with 0x39. unfold is_ascii_digit in Hc. by rewrite Hc.
Qed.

Lemma isdecimal_ascii (c : char) : is_ascii_digit c = true -> isdecimal c = true.
Proof. intros Hc. unfold isdecimal. by rewrite to_decimal_ascii. Qed.

Lemma read_digits_acc (d : Decimal.uint) (acc : positive) :
  fold_left (fun a c => 10 * a + default 0 (to_decimal c)) (str_of_uint d) (Npos acc)
  = Npos (Pos.of_uint_acc d acc).
Proof.
  revert acc. induction d as [|d IH|d IH|d IH|d IH|d IH|d IH|d IH|d IH|d IH|d IH];
    intros acc; [reflexivity|..];
    cbn [str_of_uint fold_left Pos.of_uint_acc]; rewrite <- IH; f_equal;
    rewrite to_decimal_ascii by reflexivity; cbn; lia.
Qed.

Lemma read_digits (d : Decimal.uint) :
  fold_left (fun a c => 10 * a + default 0 (to_decimal c)) (str_of_uint d) 0
  = Pos.of_uint d.
Proof.
  induction d as [|d IH|d IH|d IH|d IH|d IH|d IH|d IH|d IH|d IH|d IH];
    [reflexivity | exact IH | ..];
    cbn [str_of_uint fold_left Pos.of_uint]; rewrite <- read_digits_acc; f_equal.
Qed.

(** The digits [str] writes for a natural number write that number. *)
Lemma digits_value_str_of_int (n : Z) :
  (0 <= n)%Z -> digits_value (str_of_int n) = n.
Proof.
  intros Hn. unfold digits_value.
  destruct n as [|p|p]; [reflexivity | | lia].
  cbn [str_of_int Z.to_N N.to_uint]. rewrite read_digits.
  by rewrite DecimalPos.Unsigned.of_to.
Qed.

Lemma str_of_int_digits (n : Z) :
  (0 <= n)%Z -> Forall (fun c => is_ascii_digit c = true) (str_of_int n).
Proof. intros Hn. destruct n; [apply str_of_uint_digits.. | lia]. Qed.

(** **** The number of digits *)

(** A string of [k] characters is read as a number below [10 ^ k]. *)
Lemma fold_digits_lt (s : str) (acc : N) :
  fold_left (fun a c => 10 * a + default 0 (to_decimal c)) s acc
  < (acc + 1) * 10 ^ N.of_nat (length s).
Proof.
  revert acc. induction s as [|c s IH]; intros acc; cbn [fold_left length].
  - cbn. lia.
  - assert (default 0 (to_decimal c) <= 9) as Hd.
    { unfold to_decimal.
      destruct (List.find _ decimal_zeros) as [z|] eqn:E; cbn; [|lia].
      apply find_some in E as [_ E]. unfold in_range in E.
      apply andb_true_iff in E as [E1 E2]. apply N.leb_le in E1, E2. lia. }
    eapply N.lt_le_trans; [apply IH|].
    rewrite Nat2N.inj_succ, N.pow_succ_r'.
    generalize dependent (10 ^ N.of_nat (length s)). intros; nia.
Qed.

Lemma digits_value_lt (s : str) :
  (digits_value s < 10 ^ Z.of_nat (length s))%Z.
Proof.
  unfold digits_value. pose proof (fold_digits_lt s 0) as H.
  rewrite N.add_0_l, N.mul_1_l in H.
  apply N2Z.inj_lt in H. rewrite N2Z.inj_pow in H.
  by rewrite nat_N_Z in H.
Qed.

Lemma of_uint_acc_ge (d : Decimal.uint) (acc : positive) :
  Npos acc * 10 ^ N.of_nat (length (str_of_uint d))
  <= Npos (Pos.of_uint_acc d acc).
Proof.
  revert acc. induction d as [|d IH|d IH|d IH|d IH|d IH|d IH|d IH|d IH|d IH|d IH];
    intros acc; [cbn; lia|..];
    cbn [str_of_uint length Pos.of_uint_acc];
    (eapply N.le_trans; [|apply IH]);
    rewrite Nat2N.inj_succ, N.pow_succ_r';
    generalize dependent (10 ^ N.of_nat (length (str_of_uint d))); intros; nia.
Qed.

Lemma nzhead_head (d d' : Decimal.uint) : Decimal.nzhead d <> Decimal.D0 d'.
Proof. induction d; cbn; congruence. Qed.

(** The text written for a positive number does not start with a zero, so
    that a text of [k + 1] digits writes a number of at least [10 ^ k]. *)
Lemma to_uint_ge (p : positive) :
  10 ^ N.of_nat (pred (length (str_of_uint (Pos.to_uint p)))) <= Npos p.
Proof.
  pose proof (DecimalPos.Unsigned.of_to p) as Hof.
  pose proof (DecimalPos.Unsigned.to_of (Pos.to_uint p)) as Hto.
  rewrite Hof in Hto. cbn [N.to_uint] in Hto.
  pose proof (Unsigned.to_uint_nonzero p) as Hnz.
  pose proof (Unsigned.to_uint_nonnil p) as Hnn.
  revert Hof Hto Hnz Hnn. generalize (Pos.to_uint p). intros d Hof Hto Hnz Hnn.
  assert (Decimal.nzhead d = d) as Hd.
  { unfold Decimal.unorm in Hto.
    destruct (Decimal.nzhead d) eqn:E; congruence. }
  rewrite <- Hof. clear Hof Hto Hnz.
  destruct d as [|d|d|d|d|d|d|d|d|d|d];
    [done | by apply nzhead_head in Hd | ..];
    cbn [Pos.of_uint str_of_uint length pred];
    (eapply N.le_trans; [|apply of_uint_acc_ge]); lia.
Qed.

(** [str] writes at most [k] digits for a natural number below [10 ^ k]. *)
Lemma str_of_int_length (n : Z) (k : N) :
  (0 <= n < 10 ^ Z.of_N k)%Z -> 0 < k ->
  N.of_nat (length (str_of_int n)) <= k.
Proof.
  intros [Hn Hk] Hpos. destruct n as [|p|p]; [cbn; lia | | lia].
  cbn [str_of_int Z.to_N N.to_uint].
  pose proof (to_uint_ge p) as Hge.
  pose proof (str_of_uint_nonempty (Pos.to_uint p) (Unsigned.to_uint_nonnil p))
    as Hne.
  destruct (str_of_uint (Pos.to_uint p)) as [|c s]; [done|].
  cbn [length pred] in *.
  assert (10 ^ N.of_nat (length s) < 10 ^ k) as Hlt.
  { eapply N.le_lt_trans; [exact Hge|].
    apply N2Z.inj_lt. rewrite N2Z.inj_pow. exact Hk. }
  apply N.pow_lt_mono_r_iff in Hlt; lia.
Qed.

Lemma contains_other_head (a : char) (sub s : str) :
  Forall (fun c => c <> a) s -> contains (a :: sub) s = false.
Proof.
  induction 1 as [|c s Hc Hs IH]; [reflexivity|].
  cbn [contains starts_with]. rewrite IH.
  by rewrite (proj2 (N.eqb_neq a c)) by done.
Qed.

Lemma lower_digits (s : str) :
  Forall (fun c => is_ascii_digit c = true) s -> lower s = s.
Proof.
  intros Hs. rewrite lower_ascii.
  - induction Hs as [|c s Hc Hs IH]; [reflexivity|]. cbn [map].
    rewrite IH. f_equal. apply ascii_digit_range in Hc.
    destruct (to_lower_cases c ltac:(lia)) as [[_ H]|[E _]]; [lia | exact E].
  - eapply Forall_impl; [exact Hs|]. intros c Hc.
    apply ascii_digit_range in Hc. lia.
Qed.

Lemma digits_of_ascii (s : str) :
  Forall (fun c => is_ascii_digit c = true) s ->
  length (digits_of s) = length s.
Proof.
  intros Hs. apply digits_of_length. eapply Forall_impl; [exact Hs|].
  apply isdecimal_ascii.
Qed.

(** On a non-empty string of ASCII digits the parsed price is the number
    the digits write. *)
Lemma parsed_price_digits (s : str) :
  s <> [] -> Forall (fun c => is_ascii_digit c = true) s ->
  mentions_request s = false /\ parsed_price s = Some (digits_value s).
Proof.
  intros Hne Hs.
  assert (mentions_request s = false) as Hm.
  { unfold mentions_request. rewrite (lower_digits s Hs).
    change (lit "prix sur demande") with (0x70 :: lit "rix sur demande").
    change (lit "sur demande") with (0x73 :: lit "ur demande").
    by rewrite !contains_other_head
      by (eapply Forall_impl; [exact Hs|];
          intros c Hc; apply ascii_digit_range in Hc; lia). }
  split; [exact Hm|]. unfold parsed_price.
  rewrite (str_truthy_nonempty s Hne), Hm. cbn [negb].
  rewrite keep_digits_filter, filter_all.
  - by rewrite (str_truthy_nonempty s Hne).
  - eapply Forall_impl; [exact Hs|]. apply isdecimal_ascii.
Qed.

Lemma clean_price_written (n : Z) :
  (0 <= n < 10 ^ Z.of_N max_str_digits)%Z ->
  clean_price (str_of_int n) = Some (Some n).
Proof.
  intros Hn. rewrite clean_price_parsed.
  destruct (parsed_price_digits (str_of_int n)) as [Hm Hp];
    [apply str_of_int_nonempty | apply str_of_int_digits; lia |].
  unfold price_readable. rewrite Hm. cbn [orb].
  rewrite digits_of_ascii by (apply str_of_int_digits; lia).
  rewrite (proj2 (N.leb_le _ _)) by (by apply str_of_int_length).
  rewrite Hp. by rewrite digits_value_str_of_int by lia.
Qed.

(** X5: [clean_price] reads back a price written in decimal: for every
    integer [n >= 0] that [int] accepts (at most 4300 digits), the text
    [str(n)] is parsed as [n]. *)
Theorem clean_price_str_of_int (n : Z) :
  (0 <= n < 10 ^ 4300)%Z -> clean_price (str_of_int n) = Some (Some n).
Proof. apply clean_price_written. Qed.

Lemma clean_price_str_of_int_witness :
  clean_price (lit "25000") = Some (Some 25000%Z).
Proof.
  apply (clean_price_str_of_int 25000).
  split; [lia | vm_compute; reflexivity].
Defined.

(** *** Cleaning cleaned records again *)

Lemma ws_normalized_no_space (s : str) :
  Forall (fun c => isspace c = false) s -> ws_normalized s = true.
Proof.
  intros Hs. unfold ws_normalized. apply andb_true_iff. split.
  - destruct Hs as [|c s Hc _]; [reflexivity|]. by rewrite Hc.
  - induction Hs as [|c s Hc Hs IH]; [reflexivity|].
    cbn [single_spaces]. by rewrite Hc, IH.
Qed.

Lemma normalize_whitespace_digits (s : str) :
  Forall (fun c => is_ascii_digit c = true) s -> normalize_whitespace s = s.
Proof.
  intros Hs. apply normalize_whitespace_fixed, ws_normalized_no_space.
  eapply Forall_impl; [exact Hs|]. intros c Hc.
  apply ascii_digit_range in Hc. apply isspace_false_between. lia.
Qed.

(** A price [clean_price] returned is below [10 ^ 4300]. *)
Lemma parsed_price_bound (s : str) (n : Z) :
  price_readable s = true -> parsed_price s = Some n ->
  (0 <= n < 10 ^ Z.of_N max_str_digits)%Z.
Proof.
  unfold price_readable, parsed_price.
  destruct (negb (str_truthy s)); [discriminate|].
  destruct (mentions_request s); [discriminate|]. cbn [orb].
  rewrite keep_digits_filter, <- digits_of_filter_length.
  intros Hlen. apply N.leb_le in Hlen.
  destruct (str_truthy _); [|discriminate]. intros [= <-].
  split; [apply digits_value_nonneg|].
  eapply Z.lt_le_trans; [apply digits_value_lt|].
  apply Z.pow_le_mono_r; lia.
Qed.

(** The price of a cleaned record can be written and is read again as
    itself; an absent price stays absent. *)
Lemma parsed_price_again (s : str) :
  price_readable s = true ->
  writable (value_of_price (parsed_price s)) = true
  /\ price_readable
       (normalize_whitespace (str_text (value_of_price (parsed_price s))))
     = true
  /\ parsed_price
       (normalize_whitespace (str_text (value_of_price (parsed_price s))))
     = parsed_price s.
Proof.
  intros Hs.
  destruct (parsed_price s) as [n|] eqn:E; cbn [value_of_price str_text writable];
    [|by repeat split; vm_compute].
  pose proof (parsed_price_bound s n Hs E) as Hn.
  assert (Forall (fun c => is_ascii_digit c = true) (str_of_int n)) as Hd
    by (apply str_of_int_digits; lia).
  rewrite normalize_whitespace_digits by exact Hd.
  destruct (parsed_price_digits (str_of_int n)) as [Hm Hp];
    [apply str_of_int_nonempty | exact Hd |].
  split; [|split].
  - apply Z.ltb_lt. lia.
  - unfold price_readable. rewrite Hm. cbn [orb].
    rewrite digits_of_ascii by exact Hd.
    apply N.leb_le. by apply str_of_int_length.
  - rewrite Hp. by rewrite digits_value_str_of_int by lia.
Qed.

Lemma py_or_str_inv (t s : str) :
  py_or (VStr t) VNone = VStr s -> t = s /\ s <> [].
Proof.
  unfold py_or. cbn [truthy]. destruct t; cbn [str_truthy]; [discriminate|].
  by intros [= <-].
Qed.

Lemma py_or_str_nonempty (s : str) : s <> [] -> py_or (VStr s) VNone = VStr s.
Proof. by destruct s. Qed.

Lemma py_or_writable (s : str) : writable (py_or (VStr s) VNone) = true.
Proof. by destruct s. Qed.

(** A cleaned record can be cleaned again. *)
Lemma cleaned_row_cleanable (r : row) :
  cleanable r = true -> cleanable (cleaned_row r) = true.
Proof.
  intros Hr. apply cleanable_price in Hr.
  destruct (parsed_price_again _ Hr) as (Hw & Hread & _).
  unfold cleanable. rewrite py_str_text. cbn [forallb]. unfold dict_get.
  rewrite cleaned_row_prix, cleaned_row_type.
  rewrite !cleaned_row_text by set_solver. cbn [default]. unfold id.
  by rewrite Hw, !py_or_writable, Hread.
Qed.

Lemma cleaned_row_again (r : row) :
  cleanable r = true ->
  cleaned_row (cleaned_row r) !! lit "prix" = cleaned_row r !! lit "prix"
  /\ forall k s,
       k ∈ [lit "type"; lit "adresse"; lit "image_lien"; lit "categorie"] ->
       cleaned_row r !! k = Some (VStr s) ->
       cleaned_row (cleaned_row r) !! k = Some (VStr s).
Proof.
  intros Hr. apply cleanable_price in Hr. split.
  - rewrite (cleaned_row_prix (cleaned_row r)). unfold field_text at 1, dict_get.
    rewrite (cleaned_row_prix r). cbn [default]. unfold id.
    by destruct (parsed_price_again _ Hr) as (_ & _ & ->).
  - intros k s Hk. apply elem_of_cons in Hk as [->|Hk].
    + rewrite (cleaned_row_type (cleaned_row r)). unfold field_text at 1, dict_get.
      rewrite (cleaned_row_type r). cbn [default]. unfold id. intros [= E].
      rewrite E. cbn [str_text]. apply py_or_str_inv in E as [E Hne].
      assert (ws_normalized s = true) as Hs.
      { rewrite <- E, ws_normalized_lower. apply normalize_whitespace_normalized. }
      rewrite (normalize_whitespace_fixed s Hs).
      assert (lower s = s) as -> by (rewrite <- E; apply lower_idem).
      by rewrite py_or_str_nonempty.
    + rewrite (cleaned_row_text (cleaned_row r) k Hk). unfold field_text at 1, dict_get.
      rewrite (cleaned_row_text r k Hk). cbn [default]. unfold id. intros [= E].
      rewrite E. cbn [str_text]. apply py_or_str_inv in E as [E Hne].
      assert (ws_normalized s = true) as Hs.
      { rewrite <- E. apply normalize_whitespace_normalized. }
      rewrite (normalize_whitespace_fixed s Hs).
      by rewrite py_or_str_nonempty.
Qed.

(** X6: the records [clean_records] returned can be cleaned once more, and
    this keeps, in every record, the parsed price and every text field
    among [type], [adresse], [image_lien] and [categorie] that holds a
    string. *)
Theorem clean_records_again (records cleaned : list row) :
  clean_records records = Some cleaned ->
  exists again : list row,
    clean_records cleaned = Some again
    /\ Forall2
         (fun c c' : row =>
            c' !! lit "prix" = c !! lit "prix"
            /\ forall k s,
                 k ∈ [lit "type"; lit "adresse"; lit "image_lien"; lit "categorie"] ->
                 c !! k = Some (VStr s) -> c' !! k = Some (VStr s))
         cleaned again.
Proof.
  intros E. apply clean_records_Some in E as [Hall ->].
  rewrite forallb_forall in Hall.
  exists (cleaned_row <$> (cleaned_row <$> records)). split.
  - rewrite clean_records_cleaned.
    rewrite (proj2 (forallb_forall _ _)); [reflexivity|].
    intros c Hc. apply list_elem_of_In, list_elem_of_fmap in Hc as (r & -> & Hr).
    by apply cleaned_row_cleanable, Hall, list_elem_of_In.
  - apply Forall2_fmap_r, Forall_Forall2_diag, Forall_fmap, Forall_forall.
    intros r Hr. apply cleaned_row_again. by apply Hall, list_elem_of_In.
Qed.

Lemma clean_records_again_witness :
  exists again : list row,
    clean_records [cleaned_card] = Some again
    /\ Forall2
         (fun c c' : row =>
            c' !! lit "prix" = c !! lit "prix"
            /\ forall k s,
                 k ∈ [lit "type"; lit "adresse"; lit "image_lien"; lit "categorie"] ->
                 c !! k = Some (VStr s) -> c' !! k = Some (VStr s))
         [cleaned_card] again.
Proof.
  apply (clean_records_again [tagged_card] [cleaned_card]).
  vm_compute. reflexivity.
Defined.

(** ** Further properties of deduplication *)

Lemma dedupe_from_id (seen : gset dedup_key_t) (records : list row) :
  NoDup (dedup_key <$> records) ->
  (forall k, k ∈ dedup_key <$> records -> k ∉ seen) ->
  dedupe_from seen records = records.
Proof.
  revert seen. induction records as [|r records IH]; intros seen Hnd Hseen;
    [reflexivity|].
  cbn [fmap list_fmap] in Hnd, Hseen. apply NoDup_cons in Hnd as [Hr Hnd].
  cbn [dedupe_from]. rewrite decide_False
    by (apply Hseen, elem_of_cons; by left).
  f_equal. apply IH; [exact Hnd|].
  intros k Hk Hin. apply elem_of_union in Hin as [Hin|Hin].
  - apply elem_of_singleton in Hin as ->. done.
  - apply (Hseen k); [apply elem_of_cons; by right | exact Hin].
Qed.

(** X7: [dedupe_records] returns its input unchanged exactly when no two
    records of the input have the same key. *)
Theorem dedupe_records_fixed_points (records : list row) :
  dedupe_records records = records <-> NoDup (dedup_key <$> records).
Proof.
  rewrite dedupe_records_from. split.
  - intros E. rewrite <- E. apply dedupe_from_NoDup.
  - intros Hnd. apply dedupe_from_id; [exact Hnd|]. intros k _. apply not_elem_of_empty.
Qed.

Lemma dedupe_from_app (seen : gset dedup_key_t) (a b : list row) :
  dedupe_from seen (a ++ b)
  = dedupe_from seen a
    ++ dedupe_from (seen ∪ list_to_set (dedup_key <$> a)) b.
Proof.
  revert seen. induction a as [|r a IH]; intros seen;
    cbn [app dedupe_from fmap list_fmap list_to_set].
  - f_equal. set_solver.
  - case_decide as Hr; rewrite IH; clear IH.
    + do 2 f_equal. keys_solver.
    + cbn [app]. do 3 f_equal. keys_solver.
Qed.

Lemma dedupe_from_union (seen other : gset dedup_key_t) (records : list row) :
  dedupe_from (seen ∪ other) records
  = filter (fun r => dedup_key r ∉ other) (dedupe_from seen records).
Proof.
  revert seen. induction records as [|r records IH]; intros seen;
    cbn [dedupe_from]; [reflexivity|].
  destruct (decide (dedup_key r ∈ seen)) as [Hin|Hout].
  - rewrite decide_True by (apply elem_of_union; by left). apply IH.
  - destruct (decide (dedup_key r ∈ other)) as [Hin'|Hout'].
    + rewrite decide_True by (apply elem_of_union; by right).
      rewrite filter_cons_False by (intros Hn; by apply Hn).
      rewrite <- IH. clear IH.
      replace ({[dedup_key r]} ∪ seen ∪ other) with (seen ∪ other);
        [reflexivity | keys_solver].
    + rewrite decide_False
        by (intros Hn; apply elem_of_union in Hn as [Hn|Hn]; done).
      rewrite filter_cons_True by exact Hout'. f_equal.
      rewrite <- IH. f_equal. keys_solver.
Qed.

(** X8: deduplicating two batches read one after the other: the result is
    the deduplicated first batch followed by the records of the
    deduplicated second batch whose key does not occur in the first. *)
Theorem dedupe_records_app (a b : list row) :
  dedupe_records (a ++ b)
  = dedupe_records a
    ++ filter (fun r => dedup_key r ∉ dedup_key <$> a) (dedupe_records b).
Proof.
  rewrite !dedupe_records_from, dedupe_from_app. f_equal.
  rewrite dedupe_from_union. apply list_filter_iff.
  intros r. by rewrite elem_of_list_to_set.
Qed.

(** X9: records can be deduplicated as they arrive: deduplicating an
    already deduplicated batch followed by new records gives what
    deduplicating all the records at once gives. *)
Theorem dedupe_records_incremental (a b : list row) :
  dedupe_records (dedupe_records a ++ b) = dedupe_records (a ++ b).
Proof.
  rewrite !dedupe_records_from, !dedupe_from_app, dedupe_from_idem.
  f_equal. f_equal. apply set_eq. intros k.
  rewrite !elem_of_union, !elem_of_list_to_set, dedupe_from_keys. set_solver.
Qed.

(** X10: [dedupe_records] returns as many records as the input has
    different keys. *)
Theorem dedupe_records_length (records : list row) :
  length (dedupe_records records)
  = size (list_to_set (dedup_key <$> records) : gset dedup_key_t).
Proof.
  rewrite dedupe_records_from.
  rewrite <- (length_fmap dedup_key (dedupe_from ∅ records)).
  rewrite <- (size_list_to_set (C := gset dedup_key_t))
    by apply dedupe_from_NoDup.
  f_equal. apply set_eq. intros k.
  rewrite !elem_of_list_to_set, dedupe_from_keys. set_solver.
Qed.

(** *** Deduplicating cleaned records *)

Lemma cleaned_row_key_raw (raw : str) :
  py_or (py_or (VStr raw) VNone) (value_of_price (parsed_price raw))
  = match raw with [] => VNone | _ :: _ => VStr raw end.
Proof. by destruct raw. Qed.

(** Two cleaned records with the same key are the same record. *)
Lemma dedup_key_cleaned_row_inj (r1 r2 : row) :
  dedup_key (cleaned_row r1) = dedup_key (cleaned_row r2) ->
  cleaned_row r1 = cleaned_row r2.
Proof.
  unfold dedup_key, dict_get_none, dict_get.
  rewrite !cleaned_row_type, !cleaned_row_prix_brut, !cleaned_row_prix.
  rewrite !(cleaned_row_text _ (lit "adresse")) by set_solver.
  rewrite !(cleaned_row_text _ (lit "image_lien")) by set_solver.
  rewrite !(cleaned_row_text _ (lit "categorie")) by set_solver.
  cbn [default]. unfold id. rewrite !cleaned_row_key_raw.
  intros [= Et Ep Ea Ei Ec].
  assert (field_text r1 (lit "prix") = field_text r2 (lit "prix")) as Eraw.
  { revert Ep.
    generalize (field_text r1 (lit "prix")).
    generalize (field_text r2 (lit "prix")).
    intros [|b t2] [|a t1] E; by simplify_eq. }
  unfold cleaned_row. by rewrite Et, Eraw, Ea, Ei, Ec.
Qed.

(** X11: after cleaning, deduplication merges identical records only: the
    records of [dedupe_records] applied to what [clean_records] returns are
    pairwise different, and they are the records [clean_records] returned. *)
Theorem dedupe_clean_records_exact (records cleaned : list row) :
  clean_records records = Some cleaned ->
  NoDup (dedupe_records cleaned)
  /\ forall c : row, c ∈ dedupe_records cleaned <-> c ∈ cleaned.
Proof.
  intros E. apply clean_records_Some in E as [_ ->].
  rewrite dedupe_records_from. split.
  - eapply NoDup_fmap_1. apply dedupe_from_NoDup.
  - intros c. split.
    + intros Hc. eapply elem_of_sublist; [exact Hc | apply dedupe_from_sublist].
    + intros Hc.
      assert (dedup_key c ∈ dedup_key <$> dedupe_from ∅ (cleaned_row <$> records))
        as Hk.
      { apply dedupe_from_keys. split; [|apply not_elem_of_empty].
        by apply list_elem_of_fmap_2. }
      apply list_elem_of_fmap in Hk as (c' & Ek & Hc').
      pose proof (elem_of_sublist _ _ c' Hc' (dedupe_from_sublist _ _)) as Hin.
      apply list_elem_of_fmap in Hc as (r & -> & _).
      apply list_elem_of_fmap in Hin as (r' & -> & _).
      by rewrite (dedup_key_cleaned_row_inj r r' Ek).
Qed.

Lemma dedupe_clean_records_exact_witness :
  NoDup (dedupe_records [cleaned_card; cleaned_card])
  /\ forall c : row,
       c ∈ dedupe_records [cleaned_card; cleaned_card]
       <-> c ∈ [cleaned_card; cleaned_card].
Proof.
  apply (dedupe_clean_records_exact [tagged_card; tagged_card]
           [cleaned_card; cleaned_card]).
  vm_compute. reflexivity.
Defined.

(** ** Further properties of scraping *)

Lemma parse_listings_listing_ok `{HtmlParser} (html item_type : str) :
  length (parse_listings html item_type)
  = length (select (BeautifulSoup html) (lit "div.card.ad__card"))
  /\ Forall (listing_ok item_type) (parse_listings html item_type).
Proof.
  unfold parse_listings.
  generalize (select (BeautifulSoup html) (lit "div.card.ad__card")).
  intros cards.
  match goal with
  | |- context [fold_left ?f cards []] =>
      set (body := f);
      enough (forall (acc : list row) (P : row -> Prop),
                (forall card, Forall P (body [] card)) ->
                Forall P acc ->
                length (fold_left body cards acc) = (length acc + length cards)%nat
                /\ Forall P (fold_left body cards acc)) as Hfold
  end.
  - apply (Hfold []); [|constructor].
    intros card. subst body. cbn [app]. constructor; [|constructor].
    split; [rewrite !dom_insert_L, dom_empty_L; set_solver|].
    split.
    + repeat (rewrite lookup_insert_ne by lit_neq). by rewrite lookup_insert_eq.
    + eexists _, _, _. split; [|split].
      * repeat (rewrite lookup_insert_ne by lit_neq). by rewrite lookup_insert_eq.
      * repeat (rewrite lookup_insert_ne by lit_neq). by rewrite lookup_insert_eq.
      * by rewrite lookup_insert_eq.
  - intros acc P Hbody. revert acc.
    induction cards as [|card cards IH]; intros acc Hacc; cbn [fold_left].
    + split; [cbn; lia | exact Hacc].
    + destruct (IH (body acc card)) as [Hlen Hall].
      * subst body. cbn beta. apply Forall_app. split; [exact Hacc|].
        apply (Hbody card).
      * split; [|exact Hall]. rewrite Hlen. subst body. cbn beta.
        rewrite length_app. cbn [length]. lia.
Qed.

(** X12: [parse_listings] returns one record per listing card of the
    document; each record has exactly the fields [type], [prix], [adresse]
    and [image_lien], all of them strings (never [None]), and its [type] is
    the [item_type] given. *)
Theorem parse_listings_records `{HtmlParser} (html item_type : str) :
  length (parse_listings html item_type)
  = length (select (BeautifulSoup html) (lit "div.card.ad__card"))
  /\ Forall
       (fun r : row =>
          dom r = {[ lit "type"; lit "prix"; lit "adresse"; lit "image_lien" ]}
          /\ r !! lit "type" = Some (VStr item_type)
          /\ exists price location image : str,
               r !! lit "prix" = Some (VStr price)
               /\ r !! lit "adresse" = Some (VStr location)
               /\ r !! lit "image_lien" = Some (VStr image))
       (parse_listings html item_type).
Proof. exact (parse_listings_listing_ok html item_type). Qed.

Section ScraperMore.
Context `{HostChecks} `{HtmlParser}.
Variable duration : Type.
Variable network : list (event duration) -> str -> outcome.

Local Abbreviation fetch := (fetch_html duration network).
Local Abbreviation get_event url := (EvGet duration url DEFAULT_HEADERS 20).

(** X13: [fetch_html] makes exactly one request, with the default headers
    and a timeout of 20 seconds.  It returns a text exactly when the site
    answers with a status outside 400..599, and the text is the body of
    that answer; it raises the transport error when there is no answer and
    an HTTP error carrying the status when the status is in 400..599. *)
Theorem fetch_html_outcome (url : str) (tr : list (event duration)) :
  (fetch url tr).2 = tr ++ [get_event url]
  /\ (forall html : str,
        (fetch url tr).1 = inr html
        <-> exists r, network tr url = Responded r
                      /\ ~ (400 <= status_code r < 600)%Z
                      /\ text r = html)
  /\ (forall e : exn,
        (fetch url tr).1 = inl e
        <-> (exists e', network tr url = Raised e' /\ e = RequestException e')
            \/ (exists r, network tr url = Responded r
                          /\ (400 <= status_code r < 600)%Z
                          /\ e = HTTPError (status_code r))).
Proof.
  unfold fetch_html, requests_get, raise_for_status, mbind, mret,
    io_mbind, io_mret, io_bind, io_ret, io_raise.
  destruct (network tr url) as [e'|r].
  - split; [reflexivity|]. split.
    + intros html. split; [discriminate | by intros (r & [=] & _)].
    + intros e. split.
      * intros [= <-]. left. by exists e'.
      * intros [(e1 & [= <-] & ->)|(r & [=] & _)]. reflexivity.
  - destruct ((400 <=? status_code r) && (status_code r <? 600))%Z eqn:Es.
    + apply andb_true_iff in Es as [E1 E2].
      apply Z.leb_le in E1. apply Z.ltb_lt in E2.
      split; [reflexivity|]. split.
      * intros html. split; [discriminate|].
        intros (r' & [= <-] & Hs & _). lia.
      * intros e. split.
        -- intros [= <-]. right. by exists r.
        -- intros [(e1 & [=] & _)|(r' & [= <-] & _ & ->)]. reflexivity.
    + assert (~ (400 <= status_code r < 600)%Z) as Hs.
      { apply andb_false_iff in Es as [E|E];
          [apply Z.leb_gt in E | apply Z.ltb_ge in E]; lia. }
      split; [reflexivity|]. split.
      * intros html. split.
        -- intros [= <-]. by exists r.
        -- by intros (r' & [= <-] & _ & <-).
      * intros e. split; [discriminate|].
        intros [(e1 & [=] & _)|(r' & [= <-] & Hs' & _)]. done.
Qed.

(** X14: when every page is fetched, [scrape_category] returns the records
    of the pages 1 to [max(1, pages)] in page order, after one request per
    page and a pause of [delay_seconds] between two requests (none after
    the last). *)
Theorem scrape_category_all_pages (base_url item_type : str) (pages : Z)
    (d : duration) (tr0 : list (event duration)) (url html : Z -> str) :
  (forall j, (1 <= j <= Z.max 1 pages)%Z ->
     build_page_url base_url j = Some (url j)) ->
  (forall j, (1 <= j <= Z.max 1 pages)%Z ->
     (fetch (url j) (after_pages url d tr0 (j - 1))).1 = inr (html j)) ->
  scrape_category duration network base_url item_type pages d tr0
  = (inr (flat_map (fun i => parse_listings (html i) item_type)
            (seqZ 1 (Z.max 1 pages))),
     after_pages url d tr0 (Z.max 1 pages - 1)
     ++ [get_event (url (Z.max 1 pages))]).
Proof.
  intros Hurl Hok. unfold scrape_category.
  pose proof (scrape_pages_returns duration network base_url item_type
                (Z.max 1 pages) d tr0 url html
                Hurl Hok (Z.to_nat (Z.max 1 pages - 1)) 1 []
                ltac:(lia) ltac:(lia)) as E.
  replace (Z.max 1 pages - 1 + 1)%Z with (Z.max 1 pages) in E by lia.
  replace (after_pages url d tr0 (1 - 1)) with tr0 in E; [exact E|].
  unfold after_pages. cbn. by rewrite app_nil_r.
Qed.

(** X15: with [pages] at most 1 (zero and negative numbers included),
    [scrape_category] makes a single request, to [base_url] as it is
    given, makes no pause, and returns the listings of that document or
    raises what the request raised. *)
Theorem scrape_category_single_page (base_url item_type : str) (pages : Z)
    (d : duration) (tr0 : list (event duration)) :
  (pages <= 1)%Z ->
  scrape_category duration network base_url item_type pages d tr0
  = (match (fetch base_url tr0).1 with
     | inl e => inl e
     | inr html => inr (parse_listings html item_type)
     end,
     tr0 ++ [get_event base_url]).
Proof.
  intros Hp. unfold scrape_category.
  replace (Z.max 1 pages) with 1%Z by lia.
  change (seqZ 1 1) with [1%Z]. cbn [scrape_pages].
  unfold build_page_url. change (1 <=? 1)%Z with true.
  unfold mbind, mret, io_mbind, io_mret, io_bind, io_ret.
  pose proof (fetch_html_trace duration network base_url tr0) as Ht.
  destruct (fetch base_url tr0) as [[e|html] tr']; cbn [fst snd] in *;
    subst tr'; [reflexivity|].
  change (1 <? 1)%Z with false. reflexivity.
Qed.

Lemma scrape_pages_requests (base_url item_type : str) (pages : Z) (d : duration)
    (tr0 : list (event duration)) :
  let url := fun j => default [] (build_page_url base_url j) in
  forall (m : nat) (j : Z) (results : list row),
    (1 <= j)%Z -> (j + Z.of_nat m = pages)%Z ->
    exists k : Z,
      (j <= k <= pages)%Z
      /\ (forall i, (j <= i < k)%Z -> build_page_url base_url i = Some (url i))
      /\ ((build_page_url base_url k = Some (url k)
           /\ (scrape_pages duration network base_url item_type pages d
                 (seqZ j (pages - j + 1)) results
                 (after_pages url d tr0 (j - 1))).2
              = after_pages url d tr0 (k - 1) ++ [get_event (url k)]
           /\ forall records,
                (scrape_pages duration network base_url item_type pages d
                   (seqZ j (pages - j + 1)) results
                   (after_pages url d tr0 (j - 1))).1 = inr records ->
                k = pages)
          \/ (build_page_url base_url k = None
              /\ scrape_pages duration network base_url item_type pages d
                   (seqZ j (pages - j + 1)) results
                   (after_pages url d tr0 (j - 1))
                 = (inl UrlError, after_pages url d tr0 (k - 1)))).
Proof.
  intros url m. induction m as [|m IH]; intros j results Hj Hm;
    rewrite seqZ_cons by lia; cbn [scrape_pages];
    destruct (build_page_url base_url j) as [u|] eqn:Eb;
    try (exists j; split; [lia|]; split; [intros i Hi; lia|];
         right; split; [exact Eb | reflexivity]);
    (assert (u = url j) as -> by (unfold url; by rewrite Eb));
    unfold mbind, mret, io_mbind, io_mret, io_bind, io_ret;
    pose proof (fetch_html_trace duration network (url j)
                  (after_pages url d tr0 (j - 1))) as Ht;
    destruct (fetch (url j) (after_pages url d tr0 (j - 1))) as [[e|html] tr'];
    cbn [fst snd] in Ht; subst tr';
    try (exists j; split; [lia|]; split; [intros i Hi; lia|];
         left; split; [exact Eb|]; split; [reflexivity | discriminate]).
  - assert (j = pages) as -> by lia. rewrite Z.ltb_irrefl.
    replace (Z.pred (pages - pages + 1)) with 0%Z by lia.
    change (seqZ (Z.succ pages) 0) with (@nil Z). cbn [scrape_pages].
    exists pages. split; [lia|]. split; [intros i Hi; lia|].
    left. split; [exact Eb|]. split; [reflexivity | reflexivity].
  - rewrite (proj2 (Z.ltb_lt j pages)) by lia. unfold sleep.
    replace (Z.pred (pages - j + 1)) with (pages - Z.succ j + 1)%Z by lia.
    destruct (IH (Z.succ j) (results ++ parse_listings html item_type)
                ltac:(lia) ltac:(lia)) as (k & Hk & Hbuilt & Hend).
    replace (Z.succ j - 1)%Z with (j - 1 + 1)%Z in Hend by lia.
    rewrite after_pages_succ in Hend by lia.
    replace (j - 1 + 1)%Z with j in Hend by lia.
    rewrite <- ?app_assoc. cbn [app].
    exists k. split; [lia|]. split; [|exact Hend].
    intros i Hi. destruct (decide (i = j)) as [->|Hne]; [exact Eb|].
    apply Hbuilt. lia.
Qed.

(** X16: whatever the site answers, [scrape_category] requests the pages
    1, 2, ... in this order and each once, the first one at [base_url] as it
    is given and page [i] at the URL built for [i]; it pauses for
    [delay_seconds] after every request but the last; it requests at most
    [max(1, pages)] pages, and it returns records only after requesting all
    of them.  The run ends before a request only when no URL can be built
    for the next page. *)
Theorem scrape_category_requests (base_url item_type : str) (pages : Z)
    (d : duration) (tr0 : list (event duration)) :
  exists (k : Z) (url : Z -> str),
    (1 <= k <= Z.max 1 pages)%Z
    /\ url 1%Z = base_url
    /\ (forall i, (1 <= i <= k)%Z -> build_page_url base_url i = Some (url i))
    /\ (((scrape_category duration network base_url item_type pages d tr0).2
         = after_pages url d tr0 (k - 1) ++ [get_event (url k)]
         /\ forall records,
              (scrape_category duration network base_url item_type pages d tr0).1
              = inr records ->
              k = Z.max 1 pages)
        \/ ((k < Z.max 1 pages)%Z
            /\ build_page_url base_url (k + 1) = None
            /\ scrape_category duration network base_url item_type pages d tr0
               = (inl UrlError, after_pages url d tr0 k))).
Proof.
  unfold scrape_category.
  set (url := fun j => default [] (build_page_url base_url j)).
  destruct (scrape_pages_requests base_url item_type (Z.max 1 pages) d tr0
              (Z.to_nat (Z.max 1 pages - 1)) 1 [] ltac:(lia) ltac:(lia))
    as (k & Hk & Hbuilt & Hend).
  fold url in Hbuilt, Hend.
  replace (Z.max 1 pages - 1 + 1)%Z with (Z.max 1 pages) in Hend by lia.
  replace (after_pages url d tr0 (1 - 1)) with tr0 in Hend
    by (unfold after_pages; cbn; by rewrite app_nil_r).
  assert (build_page_url base_url 1 = Some base_url) as Hfirst by reflexivity.
  destruct Hend as [(Hb & Htr & Hret)|(Hb & Eres)].
  - exists k, url. split; [lia|]. split; [unfold url; by rewrite Hfirst|].
    split; [|left; by split].
    intros i Hi. destruct (decide (i = k)) as [->|Hne]; [exact Hb|].
    apply Hbuilt. lia.
  - assert (k <> 1%Z) as Hk1 by (intros ->; congruence).
    exists (k - 1)%Z, url. split; [lia|].
    split; [unfold url; by rewrite Hfirst|].
    split; [intros i Hi; apply Hbuilt; lia|].
    right. split; [lia|]. replace (k - 1 + 1)%Z with k by lia. by split.
Qed.

End ScraperMore.

Lemma scrape_category_all_pages_witness :
  @scrape_category plain_hosts one_card N always_found
    category_url (lit "habits") 2 600 []
  = (inr (flat_map (fun i => @parse_listings one_card (lit "12 000 CFA") (lit "habits"))
            (seqZ 1 2)),
     [EvGet N category_url DEFAULT_HEADERS 20; EvSleep N 600;
      EvGet N (category_url ++ lit "?page=2") DEFAULT_HEADERS 20]).
Proof.
  apply (@scrape_category_all_pages plain_hosts one_card N always_found
           category_url (lit "habits") 2 600 []
           (fun j => if (j =? 1)%Z then category_url
                     else category_url ++ lit "?page=" ++ str_of_int j)
           (fun _ => lit "12 000 CFA")).
  - intros j Hj. assert (j = 1 \/ j = 2)%Z as [-> | ->] by lia;
      vm_compute; reflexivity.
  - intros j Hj. assert (j = 1 \/ j = 2)%Z as [-> | ->] by lia;
      vm_compute; reflexivity.
Defined.

Lemma scrape_category_single_page_witness :
  @scrape_category plain_hosts no_cards N second_page_missing
    category_url (lit "habits") 0 600 []
  = (inr [], [EvGet N category_url DEFAULT_HEADERS 20]).
Proof.
  apply (@scrape_category_single_page plain_hosts no_cards N second_page_missing
           category_url (lit "habits") 0 600 []).
  lia.
Defined.

(** ** Further properties of page URLs *)





(** *** Building a page URL from a page URL *)









(** ** Scraping several categories *)

Section AppFacts.
Context `{HostChecks} `{HtmlParser}.
Variable duration : Type.
Variable network : list (event duration) -> str -> outcome.
Variable default_delay : duration.

(** A property of the listings of every document holds for the records
    [scrape_category] returns. *)
Lemma scrape_pages_Forall (P : row -> Prop) (base_url item_type : str)
    (pages : Z) (d : duration) :
  (forall html, Forall P (parse_listings html item_type)) ->
  forall (todo : list Z) (results : list row) (tr : list (event duration))
         (records : list row) (tr' : list (event duration)),
    Forall P results ->
    scrape_pages duration network base_url item_type pages d todo results tr
    = (inr records, tr') ->
    Forall P records.
Proof.
  intros HP. induction todo as [|page todo IH]; intros results tr records tr' Hres;
    cbn [scrape_pages].
  - unfold mret, io_mret, io_ret. by intros [= <- _].
  - unfold mbind, mret, io_mbind, io_mret, io_bind, io_ret, io_raise.
    destruct (build_page_url base_url page) as [url|]; [|discriminate].
    destruct (fetch_html duration network url tr) as [[e|html] tr1];
      [discriminate|].
    destruct (page <? pages)%Z; unfold sleep; apply IH;
      (apply Forall_app; split; [exact Hres | apply HP]).
Qed.

Lemma scrape_category_Forall (P : row -> Prop) (base_url item_type : str)
    (pages : Z) (d : duration) (tr : list (event duration))
    (records : list row) (tr' : list (event duration)) :
  (forall html, Forall P (parse_listings html item_type)) ->
  scrape_category duration network base_url item_type pages d tr
  = (inr records, tr') ->
  Forall P records.
Proof.
  intros HP. unfold scrape_category.
  apply (scrape_pages_Forall P _ _ _ _ HP). constructor.
Qed.

Lemma tagged_listing_insert (categories : list str) (key : str) (meta : odict)
    (type : str) (item : row) :
  key ∈ categories ->
  dict_item CATEGORIES key = Some meta ->
  odict_lookup (lit "type") meta = Some type ->
  listing_ok type item ->
  tagged_listing categories (<[lit "categorie" := VStr key]> item).
Proof.
  intros Hkey Hmeta Htype (Hdom & Ht & _).
  exists key, meta, type. do 3 (split; [assumption|]).
  split; [by rewrite lookup_insert_eq|].
  split; [by rewrite lookup_insert_ne by lit_neq|].
  rewrite dom_insert_L, Hdom. set_solver.
Qed.

Lemma scrape_keys_tagged (all : list str) (pages : Z) :
  forall (categories : list str) (records0 : list row)
         (tr : list (event duration)) (records : list row)
         (tr' : list (event duration)),
    (forall k, k ∈ categories -> k ∈ all) ->
    Forall (tagged_listing all) records0 ->
    scrape_keys duration network default_delay pages categories records0 tr
    = (inr records, tr') ->
    Forall (tagged_listing all) records.
Proof.
  induction categories as [|key categories IH];
    intros records0 tr records tr' Hsub Hrec; cbn [scrape_keys].
  - by intros [= <- _].
  - destruct (dict_item CATEGORIES key) as [meta|] eqn:Hmeta; [|discriminate].
    destruct (odict_lookup (lit "url") meta) as [url|]; [|discriminate].
    destruct (odict_lookup (lit "type") meta) as [type|] eqn:Htype;
      [|discriminate].
    destruct (scrape_category duration network url type pages default_delay tr)
      as [[e|items] tr1] eqn:Hscrape; [discriminate|].
    apply IH.
    + intros k Hk. apply Hsub, elem_of_cons. by right.
    + apply Forall_app. split; [exact Hrec|]. apply Forall_fmap.
      eapply Forall_impl.
      * apply (scrape_category_Forall (listing_ok type) _ _ _ _ _ _ _
                 (fun html => proj2 (parse_listings_listing_ok html type))
                 Hscrape).
      * intros item Hitem. cbn.
        apply (tagged_listing_insert all key meta type item); try assumption.
        apply Hsub, elem_of_cons. by left.
Qed.

Lemma scrape_multiple_tagged (categories : list str) (pages : Z)
    (tr : list (event duration)) (records : list row)
    (tr' : list (event duration)) :
  scrape_multiple duration network default_delay categories pages tr
  = (inr records, tr') ->
  Forall (tagged_listing categories) records.
Proof.
  unfold scrape_multiple.
  apply scrape_keys_tagged; [auto | constructor].
Qed.

(** X20: every record [scrape_multiple] returns carries, under
    [categorie], one of the requested keys, and under [type] the type
    [CATEGORIES] gives for that key; it has the four fields of a listing
    and [categorie], and no other. *)
Theorem scrape_multiple_tags (categories : list str) (pages : Z)
    (tr : list (event duration)) (records : list row)
    (tr' : list (event duration)) :
  scrape_multiple duration network default_delay categories pages tr
  = (inr records, tr') ->
  Forall
    (fun r : row =>
       exists (key : str) (meta : odict) (type : str),
         key ∈ categories
         /\ dict_item CATEGORIES key = Some meta
         /\ odict_lookup (lit "type") meta = Some type
         /\ r !! lit "categorie" = Some (VStr key)
         /\ r !! lit "type" = Some (VStr type)
         /\ dom r = {[ lit "type"; lit "prix"; lit "adresse"; lit "image_lien";
                       lit "categorie" ]})
    records.
Proof. apply scrape_multiple_tagged. Qed.

Lemma dict_item_elem {V : Type} (d : list (str * V)) (k : str) (v : V) :
  dict_item d k = Some v -> (k, v) ∈ d.
Proof.
  induction d as [|[k' v'] d IH]; cbn [dict_item]; [discriminate|].
  case_decide as E.
  - intros [= <-]. subst k'. apply elem_of_cons. by left.
  - intros Hd. apply elem_of_cons. right. by apply IH.
Qed.

(** The keys and the types of [CATEGORIES] are left as they are by the
    cleaning of a text field and of the type field. *)
Lemma categories_clean (key : str) (meta : odict) (type : str) :
  dict_item CATEGORIES key = Some meta ->
  odict_lookup (lit "type") meta = Some type ->
  py_or (VStr (normalize_whitespace key)) VNone = VStr key
  /\ py_or (VStr (lower (normalize_whitespace type))) VNone = VStr type.
Proof.
  intros Hmeta Ht. apply dict_item_elem in Hmeta. unfold CATEGORIES in Hmeta.
  repeat (apply elem_of_cons in Hmeta as [[= -> ->]|Hmeta];
          [vm_compute in Ht; injection Ht as <-; split; vm_compute; reflexivity|]).
  by apply elem_of_nil in Hmeta.
Qed.

(** X21: cleaning keeps the tags of scraped records: in every record
    [clean_records] returns for what [scrape_multiple] returned,
    [categorie] is one of the requested keys and [type] is the type
    [CATEGORIES] gives for that key. *)
Theorem scrape_multiple_cleaned (categories : list str) (pages : Z)
    (tr : list (event duration)) (records : list row)
    (tr' : list (event duration)) (cleaned : list row) :
  scrape_multiple duration network default_delay categories pages tr
  = (inr records, tr') ->
  clean_records records = Some cleaned ->
  Forall
    (fun c : row =>
       exists (key : str) (meta : odict) (type : str),
         key ∈ categories
         /\ dict_item CATEGORIES key = Some meta
         /\ odict_lookup (lit "type") meta = Some type
         /\ c !! lit "categorie" = Some (VStr key)
         /\ c !! lit "type" = Some (VStr type))
    cleaned.
Proof.
  intros Hrun E. apply scrape_multiple_tagged in Hrun.
  apply clean_records_Some in E as [_ ->]. apply Forall_fmap.
  eapply Forall_impl; [exact Hrun|].
  intros r (key & meta & type & Hkey & Hmeta & Htype & Hc & Ht & _). cbn.
  destruct (categories_clean key meta type Hmeta Htype) as [Ek Et].
  exists key, meta, type. do 3 (split; [assumption|]). split.
  - rewrite (cleaned_row_text r (lit "categorie")) by set_solver.
    unfold field_text, dict_get. rewrite Hc. cbn [default]. unfold id.
    cbn [str_text]. by rewrite Ek.
  - rewrite cleaned_row_type. unfold field_text, dict_get. rewrite Ht.
    cbn [default]. unfold id. cbn [str_text]. by rewrite Et.
Qed.

Lemma scrape_keys_unknown_key (pages : Z) (key : str) :
  dict_item CATEGORIES key = None ->
  forall (categories : list str) (records0 : list row)
         (tr : list (event duration)),
    key ∈ categories ->
    exists (e : app_exn) (tr' : list (event duration)),
      scrape_keys duration network default_delay pages categories records0 tr
      = (inl e, tr').
Proof.
  intros Hkey. induction categories as [|k categories IH];
    intros records0 tr Hin; [by apply elem_of_nil in Hin|].
  cbn [scrape_keys].
  destruct (dict_item CATEGORIES k) as [meta|] eqn:Hmeta; [|by eexists _, _].
  destruct (odict_lookup (lit "url") meta) as [url|]; [|by eexists _, _].
  destruct (odict_lookup (lit "type") meta) as [type|]; [|by eexists _, _].
  destruct (scrape_category duration network url type pages default_delay tr)
    as [[e|items] tr1]; [by eexists _, _|].
  apply IH. apply elem_of_cons in Hin as [->|Hin]; [congruence | exact Hin].
Qed.

(** X22: when one of the requested keys is not a key of [CATEGORIES],
    [scrape_multiple] raises and returns no record, not even those of the
    categories scraped before that key. *)
Theorem scrape_multiple_unknown_key (categories : list str) (pages : Z)
    (tr : list (event duration)) (key : str) :
  key ∈ categories ->
  dict_item CATEGORIES key = None ->
  exists (e : app_exn) (tr' : list (event duration)),
    scrape_multiple duration network default_delay categories pages tr
    = (inl e, tr').
Proof.
  intros Hin Hkey. unfold scrape_multiple.
  by apply (scrape_keys_unknown_key pages key Hkey).
Qed.

End AppFacts.

Lemma scrape_multiple_tags_witness :
  Forall
    (fun r : row =>
       exists (key : str) (meta : odict) (type : str),
         key ∈ [lit "vetements-homme"]
         /\ dict_item CATEGORIES key = Some meta
         /\ odict_lookup (lit "type") meta = Some type
         /\ r !! lit "categorie" = Some (VStr key)
         /\ r !! lit "type" = Some (VStr type)
         /\ dom r = {[ lit "type"; lit "prix"; lit "adresse"; lit "image_lien";
                       lit "categorie" ]})
    [tagged_card].
Proof.
  apply (@scrape_multiple_tags plain_hosts one_card N always_found 600
           [lit "vetements-homme"] 1 [] [tagged_card]
           [EvGet N category_url DEFAULT_HEADERS 20]).
  vm_compute. reflexivity.
Defined.

Lemma scrape_multiple_cleaned_witness :
  Forall
    (fun c : row =>
       exists (key : str) (meta : odict) (type : str),
         key ∈ [lit "vetements-homme"]
         /\ dict_item CATEGORIES key = Some meta
         /\ odict_lookup (lit "type") meta = Some type
         /\ c !! lit "categorie" = Some (VStr key)
         /\ c !! lit "type" = Some (VStr type))
    [cleaned_card].
Proof.
  apply (@scrape_multiple_cleaned plain_hosts one_card N always_found 600
           [lit "vetements-homme"] 1 [] [tagged_card]
           [EvGet N category_url DEFAULT_HEADERS 20] [cleaned_card]);
    vm_compute; reflexivity.
Defined.

Lemma scrape_multiple_unknown_key_witness :
  exists (e : app_exn) (tr' : list (event N)),
    @scrape_multiple plain_hosts one_card N always_found 600
      [lit "vetements-homme"; lit "jouets"] 1 []
    = (inl e, tr').
Proof.
  apply (@scrape_multiple_unknown_key plain_hosts one_card N always_found 600
           [lit "vetements-homme"; lit "jouets"] 1 [] (lit "jouets")).
  - apply elem_of_cons. right. apply elem_of_cons. by left.
  - vm_compute. reflexivity.
Defined.
